(** * BA14 tools: the GPA calculator and the flashcard study session

    A shallow embedding of the business logic of [src/GPACalculator.tsx]
    (the [gpa] and [targetGPAAnalysis] memos, the credit figures and the
    course handlers) and of the flashcard component (the [StudyMode]
    handlers, [createDeck], [addCard], [updateDeck], [deleteDeck],
    [importCSV] and the file name of [exportPDF]), followed by the properties
    the specification states about them and by further properties of the
    same code.

    JavaScript numbers are binary64 floats: they are modelled by Rocq's
    primitive floats, whose operations are the IEEE 754 ones JavaScript uses
    (round to nearest, ties to even).  Text that is trimmed, split or matched
    is a list of UTF-16 code units.  React state is passed explicitly: a
    handler is a function from the state its closure captured to the state
    the next render sees; the [onload] callback of a file read runs later, on
    the state captured when the file was chosen. *)

From Stdlib Require Import ZArith Lia Floats Ascii.
From stdpp Require Import base option list strings gmap pretty.

Set Warnings "-inexact-float".

(** ** JavaScript values *)

Module JS.

(** The operators [>], [>=], [<], [<=] on numbers.  Every comparison with
    [NaN] is [false]. *)
Definition gt (x y : float) : bool := (y <? x)%float.
Definition ge (x y : float) : bool := (y <=? x)%float.
Definition lt (x y : float) : bool := (x <? y)%float.
Definition le (x y : float) : bool := (x <=? y)%float.

Definition NaN : float := nan.
Definition isNaN (x : float) : bool := is_nan x.

(** [ToNumber] of the result of a property lookup on a
    [Record<string, number>]: a missing key reads [undefined], which
    arithmetic turns into [NaN]. *)
Definition toNumber (v : option float) : float := default NaN v.

(** A string is truthy when it is not empty. *)
Definition truthy (s : string) : bool := negb (bool_decide (s = "")).

(** A JavaScript string is a sequence of UTF-16 code units.  Where the
    program looks into a string (it trims, splits or matches it), the string
    is modelled code unit by code unit: a [text] is the list of its code
    units, each a number below 65536 (none of the functions below needs the
    bound).  Where a string is only stored, compared and tested for being
    empty (ids, grade keys, course names, the target input), it is a
    [string]. *)
Abbreviation text := (list N) (only parsing).

(** The code units of an ASCII or Latin-1 literal. *)
Definition units (s : string) : text :=
  N_of_ascii <$> String.list_ascii_of_string s.

(** A text is truthy when it is not empty. *)
Definition truthyText (s : text) : bool := negb (bool_decide (s = [])).

(** [v || ''] for a destructured array element [v : string | undefined]. *)
Definition orEmpty (v : option text) : text := default [] v.

(** White space as [String.prototype.trim] strips it, the WhiteSpace and
    LineTerminator code points of ECMAScript: TAB, LF, VT, FF, CR, SPACE,
    NBSP, U+1680, U+2000 to U+200A, U+2028, U+2029, U+202F, U+205F, U+3000
    and U+FEFF.  All of them are single code units. *)
Definition isWhiteSpace (c : N) : bool :=
  match c with
  | 9 | 10 | 11 | 12 | 13 | 32 | 160 | 5760 | 8232 | 8233 | 8239 | 8287
  | 12288 | 65279 => true
  | _ => (8192 <=? c) && (c <=? 8202)
  end%N.

Fixpoint trimStart (s : text) : text :=
  match s with
  | c :: s' => if isWhiteSpace c then trimStart s' else s
  | [] => []
  end.

Fixpoint trimEnd (s : text) : text :=
  match s with
  | c :: s' =>
      let t := trimEnd s' in
      if isWhiteSpace c && bool_decide (t = []) then [] else c :: t
  | [] => []
  end.

Definition trim (s : text) : text := trimEnd (trimStart s).

(** [s.split(sep)] for a separator of one code unit: the result is never
    empty, [''.split(sep)] is [['']]. *)
Fixpoint split (sep : N) (s : text) : list text :=
  match s with
  | [] => [[]]
  | c :: s' =>
      if bool_decide (c = sep) then [] :: split sep s'
      else match split sep s' with
           | field :: fields => (c :: field) :: fields
           | [] => [[c]]
           end
  end.

(** Strictly positive binary64 values: [+Infinity] and the positive finite
    numbers; and the strictly negative ones. *)
Definition SFpositive (x : spec_float) : bool :=
  match x with
  | S754_infinity false | S754_finite false _ _ => true
  | _ => false
  end.

Definition SFnegative (x : spec_float) : bool :=
  match x with
  | S754_infinity true | S754_finite true _ _ => true
  | _ => false
  end.

(** The running total of a [forEach] loop that starts from [0] and adds the
    elements in list order. *)
Definition sum (xs : list float) : float := foldl PrimFloat.add 0%float xs.

(** A running total of positive numbers: still [0], or above [0]. *)
Definition total (acc : float) : Prop :=
  acc = 0%float \/ gt acc 0 = true.

End JS.

(** ** Shapes of text

    What the specification's words "blank", "trimmed" and "separated by" say
    of a text, stated without the functions of the program. *)

Module Text.

(** Nothing but white space. *)
Fixpoint blank (s : JS.text) : Prop :=
  match s with
  | [] => True
  | c :: rest => JS.isWhiteSpace c = true /\ blank rest
  end.

(** No white space in front. *)
Definition bare (s : JS.text) : Prop :=
  match s with
  | c :: _ => JS.isWhiteSpace c = false
  | [] => True
  end.

(** No white space at either end. *)
Definition tidy (s : JS.text) : Prop := bare s /\ bare (reverse s).

(** [t] is [s] with the white space at its two ends taken off. *)
Definition stripped (s t : JS.text) : Prop :=
  exists before after, s = before ++ t ++ after /\ blank before /\ blank after /\ tidy t.

(** The fields put together again, with [sep] between them. *)
Fixpoint joined (sep : N) (fields : list JS.text) : JS.text :=
  match fields with
  | [] => []
  | field :: rest =>
      match rest with
      | [] => field
      | _ => field ++ sep :: joined sep rest
      end
  end.

(** [fields] are the parts of [s] that [sep] separates: there is at least
    one, none holds [sep], and with [sep] between them they make up [s]. *)
Definition separated (sep : N) (s : JS.text) (fields : list JS.text) : Prop :=
  fields <> [] /\ joined sep fields = s /\ Forall (fun field => sep ∉ field) fields.

(** No ["-"] in an id. *)
Fixpoint dashless (s : string) : Prop :=
  match s with
  | EmptyString => True
  | String c rest => c <> "-"%char /\ dashless rest
  end.

End Text.

(** ** [GPACalculator.tsx] *)

Module GPACalculator.

Module Course.
Record t := mk { id : string; name : string; grade : string; credits : float }.
End Course.

(** [Partial<Course>]: the fields an update carries. *)
Module Partial.
Record t := mk {
  id : option string;
  name : option string;
  grade : option string;
  credits : option float
}.
End Partial.

Inductive GPAScale := Scale_4_0 | Scale_4_3.

Definition GRADE_VALUES_4_0 : gmap string float :=
  list_to_map
    [("A+", 4.0%float); ("A", 4.0%float); ("A-", 3.7%float);
     ("B+", 3.3%float); ("B", 3.0%float); ("B-", 2.7%float);
     ("C+", 2.3%float); ("C", 2.0%float); ("C-", 1.7%float);
     ("D+", 1.3%float); ("D", 1.0%float); ("F", 0.0%float)].

Definition GRADE_VALUES_4_3 : gmap string float :=
  list_to_map
    [("A+", 4.3%float); ("A", 4.0%float); ("A-", 3.7%float);
     ("B+", 3.3%float); ("B", 3.0%float); ("B-", 2.7%float);
     ("C+", 2.3%float); ("C", 2.0%float); ("C-", 1.7%float);
     ("D+", 1.3%float); ("D", 1.0%float); ("F", 0.0%float)].

Definition gradeValues (scale : GPAScale) : gmap string float :=
  match scale with
  | Scale_4_0 => GRADE_VALUES_4_0
  | Scale_4_3 => GRADE_VALUES_4_3
  end.

Definition maxGPA (scale : GPAScale) : float :=
  match scale with
  | Scale_4_0 => 4.0%float
  | Scale_4_3 => 4.3%float
  end.

(** The guard [course.grade && course.credits > 0] of both loops. *)
Definition contributes (course : Course.t) : bool :=
  JS.truthy (Course.grade course) && JS.gt (Course.credits course) 0.

(** The courses that pass the guard, in list order. *)
Definition contributing (courses : list Course.t) : list Course.t :=
  filter (fun c => contributes c = true) courses.

(** [gradeValues[course.grade] * course.credits]. *)
Definition gradePoints (scale : GPAScale) (course : Course.t) : float :=
  (JS.toNumber (gradeValues scale !! Course.grade course) * Course.credits course)%float.

(** The [forEach] loop shared by [gpa] and [targetGPAAnalysis]: the pair of
    accumulators [(totalPoints, totalCredits)] after the loop. *)
Definition accumulate (scale : GPAScale) (courses : list Course.t) : float * float :=
  foldl
    (fun '(totalPoints, totalCredits) course =>
       if contributes course
       then ((totalPoints + gradePoints scale course)%float,
             (totalCredits + Course.credits course)%float)
       else (totalPoints, totalCredits))
    (0%float, 0%float) courses.

Definition gpa (courses : list Course.t) (scale : GPAScale) : float :=
  let '(totalPoints, totalCredits) := accumulate scale courses in
  if JS.gt totalCredits 0 then (totalPoints / totalCredits)%float else 0%float.

(** The weighted average of a list of contributing courses, both sums taken
    in list order; [0] for the empty list. *)
Definition average (scale : GPAScale) (contributing : list Course.t) : float :=
  match contributing with
  | [] => 0%float
  | _ => (JS.sum (gradePoints scale <$> contributing)
          / JS.sum (Course.credits <$> contributing))%float
  end.

(** Three ordinary courses of 3 credits each. *)
Definition transcript : list Course.t :=
  [Course.mk "1" "Analysis" "A-" 3; Course.mk "2" "Botany" "C+" 3;
   Course.mk "3" "Chemistry" "D+" 3].

(** The courses of [loadSavedData] when nothing is stored. *)
Definition defaultCourses : list Course.t :=
  [Course.mk "1" "Course 1" "" 3; Course.mk "2" "Course 2" "" 3;
   Course.mk "3" "Course 3" "" 3; Course.mk "4" "Course 4" "" 3;
   Course.mk "5" "Course 5" "" 3; Course.mk "6" "Course 6" "" 3].

(** [Date.now()] is a parameter of [addCourse]. *)
Definition addCourse (now : N) (courses : list Course.t) : list Course.t :=
  courses ++ [Course.mk (pretty now) "" "" 0%float].

(** [{ ...c, ...updates }]. *)
Definition spread (c : Course.t) (updates : Partial.t) : Course.t :=
  Course.mk
    (default (Course.id c) (Partial.id updates))
    (default (Course.name c) (Partial.name updates))
    (default (Course.grade c) (Partial.grade updates))
    (default (Course.credits c) (Partial.credits updates)).

Definition updateCourse (id : string) (updates : Partial.t)
    (courses : list Course.t) : list Course.t :=
  (fun c => if bool_decide (Course.id c = id) then spread c updates else c) <$> courses.

Definition deleteCourse (id : string) (courses : list Course.t) : list Course.t :=
  if (1 <? length courses)%nat
  then filter (fun c => Course.id c ≠ id) courses
  else courses.

(** The [message] of a result: which template it comes from, with the numbers
    the template formats. *)
Inductive Message :=
| TargetExceedsMaximum (max : float)
| TargetAchieved
| TargetNotAchievable
| ImpossibleWouldNeed (required : float)
| TargetAlreadyExceeded
| NeedInRemaining (required : float) (remainingCreditsNeeded : float).

(** The [requiredGPA] property of the result: absent, [null] or a number. *)
Inductive RequiredGPA :=
| Absent
| Null
| Figure (x : float).

Module Analysis.
Record t := mk { possible : bool; message : Message; requiredGPA : RequiredGPA }.
End Analysis.

Section TargetAnalysis.

(** The global [parseFloat]. *)
Variable parseFloat : string -> float.

(** The [targetGPAAnalysis] memo; [None] stands for [null], and [gpa] for the
    value of the [gpa] memo on the same courses and scale. *)
Definition targetGPAAnalysis (targetGPA : string) (scale : GPAScale)
    (courses : list Course.t) (totalCreditsRequired : float) : option Analysis.t :=
  if negb (JS.truthy targetGPA) || JS.isNaN (parseFloat targetGPA) then None
  else
    let target := parseFloat targetGPA in
    if JS.gt target (maxGPA scale)
    then Some (Analysis.mk false (TargetExceedsMaximum (maxGPA scale)) Absent)
    else
      let '(currentTotalPoints, currentCredits) := accumulate scale courses in
      let remainingCreditsNeeded := (totalCreditsRequired - currentCredits)%float in
      if JS.le remainingCreditsNeeded 0
      then Some (Analysis.mk
                   (JS.ge (gpa courses scale) target)
                   (if JS.ge (gpa courses scale) target
                    then TargetAchieved else TargetNotAchievable)
                   Null)
      else
        let requiredTotalPoints := (target * totalCreditsRequired)%float in
        let requiredRemainingPoints := (requiredTotalPoints - currentTotalPoints)%float in
        let requiredGPAForRemaining :=
          (requiredRemainingPoints / remainingCreditsNeeded)%float in
        if JS.gt requiredGPAForRemaining (maxGPA scale)
        then Some (Analysis.mk false (ImpossibleWouldNeed requiredGPAForRemaining)
                     (Figure requiredGPAForRemaining))
        else if JS.lt requiredGPAForRemaining 0
        then Some (Analysis.mk true TargetAlreadyExceeded (Figure 0%float))
        else Some (Analysis.mk true
                     (NeedInRemaining requiredGPAForRemaining remainingCreditsNeeded)
                     (Figure requiredGPAForRemaining)).

End TargetAnalysis.

(** What [parseFloat] reads from the literals used in the examples below;
    any other text is left unread ([NaN]). *)
Definition parseFloatOf (readings : list (string * float)) (text : string) : float :=
  JS.toNumber ((list_to_map readings : gmap string float) !! text).

(** The user actions on the course list. *)
Inductive CourseAction :=
| AddCourse (now : N)
| UpdateCourse (id : string) (updates : Partial.t)
| DeleteCourse (id : string).

Definition handle (courses : list Course.t) (a : CourseAction) : list Course.t :=
  match a with
  | AddCourse now => addCourse now courses
  | UpdateCourse id updates => updateCourse id updates courses
  | DeleteCourse id => deleteCourse id courses
  end.

Definition handleAll (courses : list Course.t) (actions : list CourseAction)
    : list Course.t :=
  foldl handle courses actions.

(** The data model's [id: unique string], along a sequence of actions: a new
    course gets an id no course of the list has ([Date.now()] has moved on),
    and an update leaves the id alone (a course row updates [name], [grade]
    or [credits]). *)
Fixpoint idsFresh (courses : list Course.t) (actions : list CourseAction) : bool :=
  match actions with
  | [] => true
  | a :: rest =>
      match a with
      | AddCourse now => bool_decide (pretty now ∉ Course.id <$> courses)
      | UpdateCourse _ updates => bool_decide (Partial.id updates = None)
      | DeleteCourse _ => true
      end
      && idsFresh (handle courses a) rest
  end.

Definition wellFormed (courses : list Course.t) : Prop :=
  courses <> [] /\ NoDup (Course.id <$> courses).

End GPACalculator.

(** ** The flashcard component *)

Module Flashcards.

Module Flashcard.
Record t := mk { id : string; front : JS.text; back : JS.text; mastered : bool }.
End Flashcard.

Module Deck.
Record t := mk { id : string; name : JS.text; cards : list Flashcard.t }.
End Deck.

(** *** The parent component: the deck collection *)

Definition updateDeck (updatedDeck : Deck.t) (decks : list Deck.t) : list Deck.t :=
  (fun d => if bool_decide (Deck.id d = Deck.id updatedDeck) then updatedDeck else d)
    <$> decks.

Definition deleteDeck (deckId : string) (decks : list Deck.t) : list Deck.t :=
  filter (fun d => Deck.id d ≠ deckId) decks.

(** The separators of the import, as code units. *)
Definition newline : N := 10.
Definition comma : N := 44.

(** [text.split('\n').filter(line => line.trim())]. *)
Definition csvLines (text : JS.text) : list JS.text :=
  filter (fun line => JS.truthyText (JS.trim line) = true) (JS.split newline text).

(** The card the [map] callback of [importCSV] builds from one line;
    [now] is the reading of [Date.now()] inside that callback. *)
Definition csvCard (now : N) (index : nat) (line : JS.text) : Flashcard.t :=
  let fields := JS.trim <$> JS.split comma line in
  let front := fields !! 0%nat in
  let back := fields !! 1%nat in
  Flashcard.mk (pretty now +:+ "-" +:+ pretty index)
    (JS.orEmpty front) (JS.orEmpty back) false.

(** [lines.map(...).filter(card => card.front && card.back)];
    [clock index] is what [Date.now()] returns while line [index] is mapped. *)
Definition newCards (clock : nat -> N) (text : JS.text) : list Flashcard.t :=
  filter
    (fun card =>
       JS.truthyText (Flashcard.front card) && JS.truthyText (Flashcard.back card) = true)
    (imap (fun index line => csvCard (clock index) index line) (csvLines text)).

(** [importCSV]: [file] is the text of [e.target.files?.[0]], [None] when no
    file was chosen; the result is the collection the [onload] callback
    passes to [setDecks], computed from the [decks] the handler captured. *)
Definition importCSV (clock : nat -> N) (deckId : string) (file : option JS.text)
    (decks : list Deck.t) : list Deck.t :=
  match file with
  | None => decks
  | Some text =>
      (fun d =>
         if bool_decide (Deck.id d = deckId)
         then Deck.mk (Deck.id d) (Deck.name d) (Deck.cards d ++ newCards clock text)
         else d) <$> decks
  end.

(** *** [StudyMode]

    The state of an open study session: the hooks of [StudyMode], its [deck]
    prop (the parent's [selectedDeck], set when the session opens and not
    touched by [updateDeck]), and the two pieces of parent state its callbacks
    write: [decks] through [onUpdateDeck], [studyMode] through [onClose]. *)
Module Study.
Record t := mk {
  decks : list Deck.t;
  studyMode : bool;
  deck : Deck.t;
  currentIndex : nat;
  isFlipped : bool;
  shuffled : bool;
  cards : list Flashcard.t;
  masteredCount : nat
}.
End Study.

(** [cards.filter(c => c.mastered).length]. *)
Definition countMastered (cards : list Flashcard.t) : nat :=
  length (filter (fun c => Flashcard.mastered c = true) cards).

(** The study button: [setSelectedDeck(deck); setStudyMode(true)], then
    [StudyMode] mounts with the initial values of its hooks. *)
Definition startStudy (decks : list Deck.t) (deck : Deck.t) : Study.t :=
  Study.mk decks true deck 0 false false (Deck.cards deck) (countMastered (Deck.cards deck)).

Definition nextCard (s : Study.t) : Study.t :=
  if (Study.currentIndex s <? length (Study.cards s) - 1)%nat
  then Study.mk (Study.decks s) (Study.studyMode s) (Study.deck s)
         (Study.currentIndex s + 1) false (Study.shuffled s)
         (Study.cards s) (Study.masteredCount s)
  else s.

Definition prevCard (s : Study.t) : Study.t :=
  if (0 <? Study.currentIndex s)%nat
  then Study.mk (Study.decks s) (Study.studyMode s) (Study.deck s)
         (Study.currentIndex s - 1) false (Study.shuffled s)
         (Study.cards s) (Study.masteredCount s)
  else s.

(** The [onFlip] callback. *)
Definition flip (s : Study.t) : Study.t :=
  Study.mk (Study.decks s) (Study.studyMode s) (Study.deck s)
    (Study.currentIndex s) (negb (Study.isFlipped s)) (Study.shuffled s)
    (Study.cards s) (Study.masteredCount s).

(** [[...cards].sort(() => Math.random() - 0.5)]: the comparator is random,
    so the order the sort leaves is a parameter, [rearrange]; whatever the
    comparator answers, the sorted array holds the elements of [cards]. *)
Definition shuffleCards (rearrange : list Flashcard.t -> list Flashcard.t)
    (s : Study.t) : Study.t :=
  Study.mk (Study.decks s) (Study.studyMode s) (Study.deck s)
    0 false true (rearrange (Study.cards s)) (Study.masteredCount s).

Definition rearrangement (rearrange : list Flashcard.t -> list Flashcard.t) : Prop :=
  forall cards, rearrange cards ≡ₚ cards.

(** [{ ...card, mastered }]. *)
Definition setMastered (mastered : bool) (card : Flashcard.t) : Flashcard.t :=
  Flashcard.mk (Flashcard.id card) (Flashcard.front card) (Flashcard.back card) mastered.

(** [markMastered].  [StudyMode] renders [cards[currentIndex].mastered], so it
    is on screen only while [currentIndex] is in range; out of range the
    handler cannot be reached, and the model has no next state ([None]). *)
Definition markMastered (mastered : bool) (s : Study.t) : option Study.t :=
  match Study.cards s !! Study.currentIndex s with
  | Some card =>
      let updated := <[Study.currentIndex s := setMastered mastered card]> (Study.cards s) in
      Some (Study.mk
              (updateDeck
                 (Deck.mk (Deck.id (Study.deck s)) (Deck.name (Study.deck s)) updated)
                 (Study.decks s))
              (Study.studyMode s) (Study.deck s)
              (Study.currentIndex s) (Study.isFlipped s) (Study.shuffled s)
              updated (countMastered updated))
  | None => None
  end.

Definition reset (s : Study.t) : Study.t :=
  Study.mk (Study.decks s) (Study.studyMode s) (Study.deck s)
    0 false false (Deck.cards (Study.deck s))
    (countMastered (Deck.cards (Study.deck s))).

(** [handleClose]: [onUpdateDeck({ ...deck, cards }); onClose()]. *)
Definition handleClose (s : Study.t) : Study.t :=
  Study.mk
    (updateDeck
       (Deck.mk (Deck.id (Study.deck s)) (Deck.name (Study.deck s)) (Study.cards s))
       (Study.decks s))
    false (Study.deck s)
    (Study.currentIndex s) (Study.isFlipped s) (Study.shuffled s)
    (Study.cards s) (Study.masteredCount s).

(** What the user can do while the session is open, short of closing it. *)
Inductive Action :=
| NextCard
| PrevCard
| Flip
| ShuffleCards (rearrange : list Flashcard.t -> list Flashcard.t)
| MarkMastered (mastered : bool)
| Reset.

Definition step (s : Study.t) (a : Action) : option Study.t :=
  match a with
  | NextCard => Some (nextCard s)
  | PrevCard => Some (prevCard s)
  | Flip => Some (flip s)
  | ShuffleCards rearrange => Some (shuffleCards rearrange s)
  | MarkMastered mastered => markMastered mastered s
  | Reset => Some (reset s)
  end.

Fixpoint run (s : Study.t) (actions : list Action) : option Study.t :=
  match actions with
  | [] => Some s
  | a :: rest => step s a ≫= fun s' => run s' rest
  end.

(** Every shuffle of the run rearranges. *)
Definition wellShuffled (a : Action) : Prop :=
  match a with
  | ShuffleCards rearrange => rearrangement rearrange
  | _ => True
  end.

(** [StudyMode] can render the session: the current card exists, and so
    does a first card to reset to. *)
Definition renders (s : Study.t) : Prop :=
  (Study.currentIndex s < length (Study.cards s))%nat
  /\ (0 < length (Deck.cards (Study.deck s)))%nat.

(** The card sequence with the mastery flags blanked. *)
Definition unmarked (cards : list Flashcard.t) : list Flashcard.t :=
  setMastered false <$> cards.

(** The default deck of [loadDecks]. *)
Definition sampleDeck : Deck.t :=
  Deck.mk "1" (JS.units "Sample Deck")
    [Flashcard.mk "1" (JS.units "What is React?")
       (JS.units "A JavaScript library for building user interfaces") false;
     Flashcard.mk "2" (JS.units "What is TypeScript?")
       (JS.units "A typed superset of JavaScript") false].

(** What the session keeps true of the collection [decks0] it was opened on:
    every deck keeps its place and its id, and a deck that is not the session's
    is untouched. *)
Definition kept (deck0 d d' : Deck.t) : Prop :=
  Deck.id d' = Deck.id d /\ (Deck.id d <> Deck.id deck0 -> d' = d).

Definition session (decks0 : list Deck.t) (deck0 : Deck.t) (s : Study.t) : Prop :=
  renders s
  /\ Study.deck s = deck0
  /\ unmarked (Study.cards s) ≡ₚ unmarked (Deck.cards deck0)
  /\ Forall2 (kept deck0) decks0 (Study.decks s).

(** *** A record of the import, as the amended claim reads it

    The record is cut at its commas; the first two parts, with the white
    space at their ends taken off, are the front and the back; a record with
    no comma, or with a front or a back that is then empty, gives no card. *)
Definition reads (record : JS.text) (reading : option (JS.text * JS.text)) : Prop :=
  exists fields,
    Text.separated comma record fields
    /\ match fields with
       | first :: second :: _ =>
           exists front back,
             Text.stripped first front /\ Text.stripped second back
             /\ reading = (if decide (front <> [] /\ back <> [])
                           then Some (front, back) else None)
       | _ => reading = None
       end.

(** *** The reading the specification gives

    The record is split on its first comma, the back being all that follows
    it. *)
Fixpoint splitFirstComma (record : JS.text) : option (JS.text * JS.text) :=
  match record with
  | [] => None
  | c :: rest =>
      if bool_decide (c = comma) then Some ([], rest)
      else match splitFirstComma rest with
           | Some (front, back) => Some (c :: front, back)
           | None => None
           end
  end.

Definition readsFirstComma (record : JS.text) (reading : option (JS.text * JS.text))
    : Prop :=
  match splitFirstComma record with
  | Some (first, rest) =>
      exists front back,
        Text.stripped first front /\ Text.stripped rest back
        /\ reading = (if decide (front <> [] /\ back <> [])
                      then Some (front, back) else None)
  | None => reading = None
  end.

(** The number of commas of a record. *)
Definition commas (record : JS.text) : nat :=
  length (filter (fun c => c = comma) record).

(** *** The import, record by record *)

(** The two sides of a card. *)
Definition faces (card : Flashcard.t) : JS.text * JS.text :=
  (Flashcard.front card, Flashcard.back card).

Definition sides (front back : JS.text) : option (JS.text * JS.text) :=
  if JS.truthyText (JS.trim front) && JS.truthyText (JS.trim back)
  then Some (JS.trim front, JS.trim back)
  else None.

(** What [importCSV] makes of a record: the first two of its comma-separated
    fields. *)
Definition recordFields (record : JS.text) : option (JS.text * JS.text) :=
  match JS.split comma record with
  | front :: back :: _ => sides front back
  | _ => None
  end.

(** The sides of the cards a list of readings gives. *)
Definition cardsRead (readings : list (option (JS.text * JS.text)))
    : list (JS.text * JS.text) :=
  omap id readings.

(** The payload of the specification's example. *)
Definition examplePayload : JS.text :=
  JS.units "Q1,A1" ++ [newline] ++ JS.units "BadLineNoComma" ++ [newline]
  ++ JS.units "Q2,A2".

(** A payload with white space of several kinds around the fields (spaces,
    TAB, CR before the newline, NBSP, the ideographic space U+3000 and
    U+FEFF), a blank line, and two records that give no card. *)
Definition spacedPayload : JS.text :=
  JS.units "  Q1 ," ++ [9%N] ++ JS.units "A1" ++ [13%N; newline]
  ++ [newline]
  ++ JS.units "BadLineNoComma" ++ [13%N; newline]
  ++ [12288%N] ++ JS.units "Q2" ++ [12288%N; comma; 160%N] ++ JS.units "A2"
  ++ [65279%N; newline]
  ++ JS.units " ,answer only".

End Flashcards.

(** ** More of the two components *)

(** The credit figures [GPACalculator] shows next to the GPA. *)
Module GPAStats.
Import GPACalculator.

(** A number is falsy when it is [0], [-0] or [NaN]. *)
Definition falsy (x : float) : bool := (x =? 0)%float || JS.isNaN x.

(** [x || fallback] on numbers. *)
Definition orElse (x fallback : float) : float := if falsy x then fallback else x.

(** [courses.reduce((sum, c) => (c.grade ? sum + (c.credits || 0) : sum), 0)]. *)
Definition completedCredits (courses : list Course.t) : float :=
  foldl
    (fun sum c =>
       if JS.truthy (Course.grade c) then (sum + orElse (Course.credits c) 0)%float else sum)
    0%float courses.

Definition remainingCredits (totalCreditsRequired : float) (courses : list Course.t) : float :=
  (totalCreditsRequired - completedCredits courses)%float.

End GPAStats.

(** The deck page of the flashcard component: the collection and the three
    text inputs, with the handlers that read them. *)
Module DeckForms.
Import Flashcards.

Record t := mk {
  decks : list Deck.t;
  newDeckName : JS.text;
  newCardFront : JS.text;
  newCardBack : JS.text
}.

(** [createDeck]; [now] is the reading of [Date.now()]. *)
Definition createDeck (now : N) (s : t) : t :=
  if JS.truthyText (JS.trim (newDeckName s))
  then mk (decks s ++ [Deck.mk (pretty now) (JS.trim (newDeckName s)) []])
         [] (newCardFront s) (newCardBack s)
  else s.

(** [addCard]; [clock index] is the reading of [Date.now()] when the [map]
    callback reaches the deck at [index]. *)
Definition addCard (clock : nat -> N) (deckId : string) (s : t) : t :=
  if JS.truthyText (JS.trim (newCardFront s)) && JS.truthyText (JS.trim (newCardBack s))
  then mk
         (imap
            (fun index d =>
               if bool_decide (Deck.id d = deckId)
               then Deck.mk (Deck.id d) (Deck.name d)
                      (Deck.cards d
                       ++ [Flashcard.mk (pretty (clock index))
                             (JS.trim (newCardFront s)) (JS.trim (newCardBack s)) false])
               else d)
            (decks s))
         (newDeckName s) [] []
  else s.

(** The preview line of a deck: [deck.cards[deck.cards.length - 1].front],
    shown when the deck has a card. *)
Definition latest (deck : Deck.t) : option JS.text :=
  Flashcard.front <$> last (Deck.cards deck).

(** A code unit that [/[^a-z0-9]/i] does not match.  The pattern has no [u]
    flag: it is matched code unit by code unit, and ignoring case folds no
    code unit from 128 on into ASCII, so these are the ASCII digits and
    letters. *)
Definition isAlphanumeric (c : N) : bool :=
  ((48 <=? c) && (c <=? 57) || (65 <=? c) && (c <=? 90) || (97 <=? c) && (c <=? 122))%N.

(** [name.replace(/[^a-z0-9]/gi, '_')]; 95 is ["_"]. *)
Definition replaceOthers (name : JS.text) : JS.text :=
  (fun c => if isAlphanumeric c then c else 95%N) <$> name.

(** The name [exportPDF] saves the document under. *)
Definition pdfFileName (deck : Deck.t) : JS.text :=
  replaceOthers (Deck.name deck) ++ JS.units "_flashcards.pdf".

(** The characters a file name is made of: ASCII letters, digits, ["_"] and
    ["."]. *)
Definition fileNameCharacters : JS.text :=
  JS.units "abcdefghijklmnopqrstuvwxyzABCDEFGHIJKLMNOPQRSTUVWXYZ0123456789_.".

(** The ASCII letters and digits. *)
Definition lettersAndDigits : JS.text :=
  JS.units "abcdefghijklmnopqrstuvwxyzABCDEFGHIJKLMNOPQRSTUVWXYZ0123456789".

(** A deck name as [createDeck] stores it: not empty, and without white space
    at either end. *)
Definition cleanName (d : Deck.t) : Prop :=
  Deck.name d <> [] /\ Text.tidy (Deck.name d).

(** The count in the header of [StudyMode] is the count of the working list. *)
Definition counted (s : Study.t) : Prop :=
  Study.masteredCount s = countMastered (Study.cards s).

End DeckForms.

(** The deck page while files are being read.  [importCSV] only starts a
    [FileReader]; the collection changes when the reader's [onload] callback
    runs, and that callback holds the [decks] of the render in which the file
    was chosen. *)
Module Page.
Import Flashcards.

(** A reader whose [onload] is still to come: the [decks] and the [deckId]
    its callback captured, and the text the read delivers. *)
Module Reader.
Record t := mk { decks : list Deck.t; deckId : string; text : JS.text }.
End Reader.

Record t := mk { decks : list Deck.t; readers : list Reader.t }.

(** [importCSV] up to [reader.readAsText(file)]. *)
Definition importCSV (deckId : string) (file : option JS.text) (p : t) : t :=
  match file with
  | None => p
  | Some text => mk (decks p) (readers p ++ [Reader.mk (decks p) deckId text])
  end.

(** The [onload] callback of the pending reader number [k]:
    [setDecks(decks.map(...))] on the captured [decks].  There is no next
    state when no such reader is pending. *)
Definition onload (clock : nat -> N) (k : nat) (p : t) : option t :=
  match readers p !! k with
  | Some reader =>
      Some (mk
              (Flashcards.importCSV clock (Reader.deckId reader)
                 (Some (Reader.text reader)) (Reader.decks reader))
              (delete k (readers p)))
  | None => None
  end.

(** The delete button of a deck row. *)
Definition deleteDeck (deckId : string) (p : t) : t :=
  mk (Flashcards.deleteDeck deckId (decks p)) (readers p).

End Page.

(** * Properties *)

(** ** Binary64 facts the calculator relies on *)

Module JSFacts.

Local Open Scope Z_scope.

Lemma gt_zero_positive x : JS.gt x 0 = JS.SFpositive (Prim2SF x).
Proof.
  unfold JS.gt. rewrite ltb_spec.
  change (Prim2SF 0) with (S754_zero false).
  unfold SFltb. by destruct (Prim2SF x) as [[]|[]| |[] ? ?].
Qed.

Lemma lt_zero_negative x : JS.lt x 0 = JS.SFnegative (Prim2SF x).
Proof.
  unfold JS.lt. rewrite ltb_spec.
  change (Prim2SF 0) with (S754_zero false).
  unfold SFltb. by destruct (Prim2SF x) as [[]|[]| |[] ? ?].
Qed.

Lemma SFcompare_antisym x y : SFcompare y x = CompOpp <$> SFcompare x y.
Proof.
  destruct x as [[]|[]| |[] m1 e1], y as [[]|[]| |[] m2 e2]; simpl; try done.
  - rewrite (Z.compare_antisym e1 e2).
    destruct (e1 ?= e2); simpl; try done.
    by rewrite (Pos.compare_cont_antisym m1 m2 Eq).
  - rewrite (Z.compare_antisym e1 e2).
    destruct (e1 ?= e2); simpl; try done.
    by rewrite (Pos.compare_cont_antisym m1 m2 Eq).
Qed.

(** [x <= y] rules out [x > y], and [x > y] rules out [x <= y]. *)
Lemma le_not_gt x y : JS.le x y = true -> JS.gt x y = false.
Proof.
  unfold JS.le, JS.gt. rewrite leb_spec, ltb_spec. unfold SFleb, SFltb.
  rewrite (SFcompare_antisym (Prim2SF x) (Prim2SF y)).
  by destruct (SFcompare (Prim2SF x) (Prim2SF y)) as [[]|].
Qed.

Lemma gt_not_le x y : JS.gt x y = true -> JS.le x y = false.
Proof.
  intros H. destruct (JS.le x y) eqn:E; [|done].
  apply le_not_gt in E. congruence.
Qed.


(** *** Rounding never takes a positive sum to zero *)

Lemma iter_pos_nat {A} (f : A -> A) p x :
  SpecFloat.iter_pos f p x = Nat.iter (Pos.to_nat p) f x.
Proof.
  revert x. induction p as [p IH|p IH|]; intros x; cbn [SpecFloat.iter_pos]; [| |done].
  - rewrite !IH, Pos2Nat.inj_xI, Nat.iter_succ_r.
    replace (2 * Pos.to_nat p)%nat with (Pos.to_nat p + Pos.to_nat p)%nat by lia.
    by rewrite Nat.iter_add.
  - rewrite !IH, Pos2Nat.inj_xO.
    replace (2 * Pos.to_nat p)%nat with (Pos.to_nat p + Pos.to_nat p)%nat by lia.
    by rewrite Nat.iter_add.
Qed.

(** Shifting out fewer bits than the mantissa has leaves a positive mantissa. *)
Lemma shr_iter_positive k m r s :
  (k < Pos.to_nat (digits2_pos m))%nat ->
  exists m' r' s',
    Nat.iter k shr_1 (Build_shr_record (Zpos m) r s) = Build_shr_record (Zpos m') r' s'.
Proof.
  revert m r s. induction k as [|k IH]; intros m r s Hk; [by eauto|].
  rewrite Nat.iter_succ_r.
  destruct m as [p|p|]; simpl in *; [apply IH; lia|apply IH; lia|lia].
Qed.

Lemma shr_fexp_positive m e l :
  emin <= e ->
  exists m' r s e',
    shr_fexp prec emax (Zpos m) e l = (Build_shr_record (Zpos m') r s, e')
    /\ emin <= e'.
Proof.
  intros He. unfold shr_fexp, shr. simpl Zdigits2.
  assert (exists r s, shr_record_of_loc (Zpos m) l = Build_shr_record (Zpos m) r s)
    as (r & s & ->) by (destruct l as [|[]]; simpl; eauto).
  destruct (fexp prec emax (Zpos (digits2_pos m) + e) - e) as [|n|n] eqn:Hn;
    [by eauto 10| |by eauto 10].
  rewrite iter_pos_nat.
  destruct (shr_iter_positive (Pos.to_nat n) m r s) as (m' & r' & s' & ->).
  - unfold fexp, SpecFloat.emin, prec, emax in *. lia.
  - exists m', r', s', (e + Zpos n). split; [done|].
    unfold fexp, SpecFloat.emin, prec, emax in *. lia.
Qed.

Lemma round_nearest_even_positive m l :
  exists m', round_nearest_even (Zpos m) l = Zpos m'.
Proof.
  destruct l as [|[]]; simpl; eauto.
  destruct m; simpl; eauto.
Qed.

Lemma binary_round_aux_positive m e l :
  emin <= e ->
  JS.SFpositive (binary_round_aux prec emax false (Zpos m) e l) = true.
Proof.
  intros He. unfold binary_round_aux.
  destruct (shr_fexp_positive m e l He) as (m1 & r1 & s1 & e1 & -> & He1).
  cbn [shr_m].
  destruct (round_nearest_even_positive m1
              (loc_of_shr_record (Build_shr_record (Zpos m1) r1 s1))) as (m2 & ->).
  destruct (shr_fexp_positive m2 e1 loc_Exact He1) as (m3 & r3 & s3 & e3 & -> & _).
  cbn [shr_m]. by destruct (_ <=? _).
Qed.

Lemma binary_round_positive m e :
  emin <= e -> JS.SFpositive (binary_round prec emax false m e) = true.
Proof.
  intros He. unfold binary_round, shl_align.
  destruct (fexp prec emax (Zpos (digits2_pos m) + e) - e) eqn:Hd;
    apply binary_round_aux_positive; try done.
  unfold fexp, SpecFloat.emin, prec, emax in *. lia.
Qed.

Lemma valid_binary_emin s m e :
  valid_binary (S754_finite s m e) = true -> emin <= e.
Proof.
  simpl. unfold bounded, canonical_mantissa.
  intros [H _]%andb_prop. apply Z.eqb_eq in H.
  unfold fexp in H. lia.
Qed.

Lemma SFadd_positive x y :
  valid_binary x = true -> valid_binary y = true ->
  JS.SFpositive x = true -> JS.SFpositive y = true ->
  JS.SFpositive (SF64add x y) = true.
Proof.
  destruct x as [[]|[]| |[] mx ex], y as [[]|[]| |[] my ey]; try done.
  intros Hx%valid_binary_emin Hy%valid_binary_emin _ _.
  unfold SF64add, SFadd. cbn [cond_Zopp].
  apply binary_round_positive. lia.
Qed.

(** A total that is [0] or positive stays positive when a positive number is
    added: the sum is positive or [+Infinity], never [0] or [NaN]. *)
Lemma add_positive acc x :
  JS.total acc -> JS.gt x 0 = true -> JS.gt (acc + x) 0 = true.
Proof.
  rewrite !gt_zero_positive. intros [->|Hacc] Hx.
  - rewrite add_spec. change (Prim2SF 0) with (S754_zero false).
    by destruct (Prim2SF x) as [[]|[]| |[] ? ?].
  - rewrite gt_zero_positive in Hacc. rewrite add_spec.
    apply SFadd_positive; auto using Prim2SF_valid.
Qed.

Lemma foldl_add_positive xs acc :
  JS.total acc -> Forall (fun x => JS.gt x 0 = true) xs -> xs <> [] ->
  JS.gt (foldl PrimFloat.add acc xs) 0 = true.
Proof.
  intros Hacc Hxs. revert acc Hacc.
  induction Hxs as [|x xs Hx Hxs IH]; intros acc Hacc Hne; [done|].
  simpl. destruct xs as [|x' xs'].
  - simpl. by apply add_positive.
  - apply IH; [right; by apply add_positive|done].
Qed.

Lemma sum_positive xs :
  Forall (fun x => JS.gt x 0 = true) xs -> xs <> [] -> JS.gt (JS.sum xs) 0 = true.
Proof. apply foldl_add_positive. by left. Qed.

(** *** Addition commutes *)

Lemma SFadd_comm x y : SF64add x y = SF64add y x.
Proof.
  destruct x as [[]|[]| |[] mx ex], y as [[]|[]| |[] my ey]; try done;
    unfold SF64add, SFadd; by rewrite (Z.min_comm ey ex), Z.add_comm.
Qed.

Lemma add_comm (x y : float) : (x + y = y + x)%float.
Proof. apply Prim2SF_inj. rewrite !add_spec. apply SFadd_comm. Qed.

(** Two numbers added to a total that starts at [0], in either order. *)
Lemma sum_pair_comm (x y : float) : JS.sum [x; y] = JS.sum [y; x].
Proof.
  unfold JS.sum. simpl. apply Prim2SF_inj. rewrite !add_spec.
  change (Prim2SF 0) with (S754_zero false).
  destruct (Prim2SF x) as [[]|[]| |[] mx ex] eqn:Ex,
           (Prim2SF y) as [[]|[]| |[] my ey] eqn:Ey; try done;
    apply SFadd_comm.
Qed.

End JSFacts.

(** ** The GPA calculator *)

Module GPAFacts.
Import GPACalculator.

(** *** The loop, read as two sums over the contributing courses *)

Lemma accumulate_from scale courses totalPoints totalCredits :
  foldl
    (fun '(totalPoints, totalCredits) course =>
       if contributes course
       then ((totalPoints + gradePoints scale course)%float,
             (totalCredits + Course.credits course)%float)
       else (totalPoints, totalCredits))
    (totalPoints, totalCredits) courses
  = (foldl PrimFloat.add totalPoints (gradePoints scale <$> contributing courses),
     foldl PrimFloat.add totalCredits (Course.credits <$> contributing courses)).
Proof.
  revert totalPoints totalCredits.
  induction courses as [|c courses IH]; intros totalPoints totalCredits; [done|].
  unfold contributing. cbn [foldl]. rewrite filter_cons.
  destruct (contributes c) eqn:Hc.
  - rewrite decide_True by done. by rewrite IH.
  - rewrite decide_False by done. apply IH.
Qed.

Lemma accumulate_contributing scale courses :
  accumulate scale courses
  = (JS.sum (gradePoints scale <$> contributing courses),
     JS.sum (Course.credits <$> contributing courses)).
Proof. apply accumulate_from. Qed.

Lemma contributing_credits_positive courses :
  Forall (fun x => JS.gt x 0 = true) (Course.credits <$> contributing courses).
Proof.
  apply Forall_fmap, Forall_forall. intros c [Hc _]%list_elem_of_filter.
  unfold contributes in Hc. by apply andb_prop in Hc as [_ ?].
Qed.

(** The value of [gpa] is a function of the contributing courses alone. *)
Lemma gpa_average courses scale :
  gpa courses scale = average scale (contributing courses).
Proof.
  unfold gpa, average. rewrite accumulate_contributing.
  pose proof (contributing_credits_positive courses) as Hpos.
  destruct (contributing courses) as [|c cs] eqn:E; [done|].
  by rewrite JSFacts.sum_positive.
Qed.

Lemma average_swap scale c1 c2 : average scale [c1; c2] = average scale [c2; c1].
Proof.
  unfold average. rewrite !fmap_cons, !fmap_nil.
  by rewrite (JSFacts.sum_pair_comm (gradePoints scale c1)),
    (JSFacts.sum_pair_comm (Course.credits c1)).
Qed.


(** C1. [gpa] is the weighted average: the sum of [points(grade) * credits]
    over the sum of [credits], both taken in list order over exactly the
    courses whose grade is not empty and whose credits are above 0, where
    [points(grade)] is the entry of the scale's grade table; it is [0] when no
    course passes that filter.  [gpa] is a total function: there is no input
    on which it fails. *)
Theorem gpa_weighted_average courses scale :
  gpa courses scale =
    match
      filter (fun c => Course.grade c <> "" /\ (0 <? Course.credits c)%float = true) courses
    with
    | [] => 0%float
    | graded =>
        (JS.sum
           ((fun c =>
               (default nan (gradeValues scale !! Course.grade c) * Course.credits c)%float)
              <$> graded)
         / JS.sum (Course.credits <$> graded))%float
    end.
Proof.
  assert (filter (fun c => Course.grade c <> "" /\ (0 <? Course.credits c)%float = true)
            courses
          = contributing courses) as ->.
  { unfold contributing. apply list_filter_iff. intros c.
    unfold contributes, JS.truthy, JS.gt.
    rewrite andb_true_iff, negb_true_iff, bool_decide_eq_false. tauto. }
  unfold gpa. rewrite accumulate_contributing.
  pose proof (contributing_credits_positive courses) as Hpos.
  destruct (contributing courses) as [|c cs] eqn:E.
  - reflexivity.
  - rewrite JSFacts.sum_positive; [reflexivity|exact Hpos|discriminate].
Qed.

(** An A and a B of 3 credits each average 3.5; on the 4.3 scale an A+ and a B
    of 2 credits each average 3.65, a course without a grade and a course
    without credits not counting; a list without a graded course gives 0. *)
Lemma gpa_weighted_average_witness :
  gpa [Course.mk "1" "Statics" "A" 3; Course.mk "2" "Optics" "B" 3] Scale_4_0
  = 3.5%float
  /\ gpa [Course.mk "1" "Statics" "A+" 2; Course.mk "2" "Botany" "" 4;
          Course.mk "3" "Optics" "B" 2; Course.mk "4" "Logic" "A" 0] Scale_4_3
     = 3.65%float
  /\ gpa [Course.mk "1" "Statics" "A+" 2; Course.mk "3" "Optics" "B" 2] Scale_4_0
     = 3.5%float
  /\ gpa [Course.mk "1" "Statics" "" 3; Course.mk "2" "Optics" "B" 0] Scale_4_0
     = 0%float.
Proof.
  rewrite !gpa_weighted_average. by vm_compute.
Defined.

(** *** The target analysis *)

Section Target.
Variable parseFloat : string -> float.


(** C3. A target that parses and is above [maxGPA] (4.0 on the 4.0 scale, 4.3
    on the 4.3 scale) is answered "not possible" before any credit is
    looked at: the result is the same for all courses and all credit
    requirements. *)
Theorem target_above_maximum targetGPA scale courses totalCreditsRequired :
  JS.truthy targetGPA = true ->
  JS.isNaN (parseFloat targetGPA) = false ->
  JS.gt (parseFloat targetGPA) (maxGPA scale) = true ->
  targetGPAAnalysis parseFloat targetGPA scale courses totalCreditsRequired
  = Some (Analysis.mk false (TargetExceedsMaximum (maxGPA scale)) Absent)
  /\ maxGPA Scale_4_0 = 4.0%float /\ maxGPA Scale_4_3 = 4.3%float
  /\ forall courses' totalCreditsRequired',
       targetGPAAnalysis parseFloat targetGPA scale courses' totalCreditsRequired'
       = targetGPAAnalysis parseFloat targetGPA scale courses totalCreditsRequired.
Proof.
  intros Ht Hn Hgt.
  assert (forall cs total,
    targetGPAAnalysis parseFloat targetGPA scale cs total
    = Some (Analysis.mk false (TargetExceedsMaximum (maxGPA scale)) Absent)) as Hstop.
  { intros cs total. unfold targetGPAAnalysis. by rewrite Ht, Hn, Hgt. }
  split; [apply Hstop|]. split; [done|]. split; [done|].
  intros courses' total'. by rewrite !Hstop.
Qed.


End Target.


Lemma target_above_maximum_witness :
  targetGPAAnalysis (parseFloatOf [("4.2", 4.2%float)]) "4.2" Scale_4_0
    [Course.mk "1" "Statics" "A" 3] 120
  = Some (Analysis.mk false (TargetExceedsMaximum 4.0%float) Absent).
Proof.
  apply (target_above_maximum (parseFloatOf [("4.2", 4.2%float)]) "4.2" Scale_4_0
           [Course.mk "1" "Statics" "A" 3] 120); by vm_compute.
Defined.


End GPAFacts.

(** ** Reordering the course list *)

Module ReorderFacts.
Import GPACalculator.

(** Read last to first, the same three courses give another GPA: the
    binary64 sums round differently. *)
Lemma gpa_depends_on_order :
  reverse transcript ≡ₚ transcript
  /\ gpa transcript Scale_4_0 = 2.433333333333333%float
  /\ gpa (reverse transcript) Scale_4_0 = 2.4333333333333336%float
  /\ (gpa transcript Scale_4_0 =? gpa (reverse transcript) Scale_4_0)%float = false.
Proof.
  split; [apply reverse_Permutation|]. by vm_compute.
Qed.

(** C9, as the code has it.  [gpa] returns the same value for every
    reordering of the course list in which at most two courses contribute,
    and for every reordering that leaves the contributing courses in the same
    relative order.  (With three or more contributing courses a reordering
    can change the last bits of the result.) *)
Theorem gpa_reordered courses courses' scale :
  courses ≡ₚ courses' ->
  (length (contributing courses) <= 2)%nat
    \/ contributing courses = contributing courses' ->
  gpa courses scale = gpa courses' scale.
Proof.
  intros Hperm Hcase. rewrite !GPAFacts.gpa_average.
  destruct Hcase as [Hlen| ->]; [|done].
  assert (contributing courses ≡ₚ contributing courses') as Hc
    by (unfold contributing; by rewrite Hperm).
  destruct (contributing courses) as [|c1 [|c2 [|c3 cs]]]; simpl in Hlen.
  - by apply Permutation_nil_l in Hc as ->.
  - by apply Permutation_singleton_l in Hc as ->.
  - apply Permutation_length_2_inv in Hc as [-> | ->]; [done|].
    apply GPAFacts.average_swap.
  - lia.
Qed.

(** Two contributing courses and one without a grade, rotated. *)
Lemma gpa_reordered_witness :
  gpa [Course.mk "1" "Analysis" "A-" 3; Course.mk "2" "Botany" "" 3;
       Course.mk "3" "Chemistry" "D+" 4] Scale_4_3
  = gpa [Course.mk "3" "Chemistry" "D+" 4; Course.mk "1" "Analysis" "A-" 3;
         Course.mk "2" "Botany" "" 3] Scale_4_3.
Proof.
  apply gpa_reordered.
  - symmetry.
    apply Permutation_cons_append with (x := Course.mk "3" "Chemistry" "D+" 4)
      (l := [Course.mk "1" "Analysis" "A-" 3; Course.mk "2" "Botany" "" 3]).
  - left. vm_compute. lia.
Defined.

End ReorderFacts.

(** ** The course list keeps one entry *)

Module CourseListFacts.
Import GPACalculator.

Lemma addCourse_wellFormed now courses :
  wellFormed courses -> pretty now ∉ Course.id <$> courses ->
  wellFormed (addCourse now courses).
Proof.
  intros [Hne Hnd] Hfresh. unfold addCourse. split.
  - by destruct courses.
  - rewrite fmap_app. apply NoDup_app. split; [done|]. split.
    + by intros x Hx [->|[]%elem_of_nil]%elem_of_cons.
    + apply NoDup_singleton.
Qed.

Lemma updateCourse_ids id updates courses :
  Partial.id updates = None ->
  Course.id <$> updateCourse id updates courses = Course.id <$> courses.
Proof.
  intros Hid. unfold updateCourse. rewrite <- list_fmap_compose.
  apply list_fmap_ext. intros _ c _. simpl.
  case_bool_decide; [|done]. unfold spread. by rewrite Hid.
Qed.

Lemma updateCourse_wellFormed id updates courses :
  wellFormed courses -> Partial.id updates = None ->
  wellFormed (updateCourse id updates courses).
Proof.
  intros [Hne Hnd] Hid. split.
  - unfold updateCourse. by destruct courses.
  - by rewrite updateCourse_ids.
Qed.

(** With distinct ids, at most one of two courses is filtered out. *)
Lemma deleteCourse_wellFormed id courses :
  wellFormed courses -> wellFormed (deleteCourse id courses).
Proof.
  intros [Hne Hnd]. unfold deleteCourse.
  destruct (1 <? length courses)%nat eqn:Hlen; [|done].
  apply Nat.ltb_lt in Hlen. split.
  - destruct courses as [|c1 [|c2 courses]]; simpl in Hlen; try lia.
    rewrite !fmap_cons in Hnd.
    apply NoDup_cons in Hnd as [Hc1 _].
    rewrite !filter_cons.
    destruct (decide (Course.id c1 ≠ id)) as [?|Heq%dec_stable]; [done|].
    destruct (decide (Course.id c2 ≠ id)) as [?|Heq2%dec_stable]; [done|].
    exfalso. apply Hc1. rewrite Heq, <- Heq2. apply elem_of_cons. by left.
  - eapply sublist_NoDup; [exact Hnd|].
    apply fmap_sublist, sublist_filter.
Qed.

Lemma handleAll_wellFormed actions courses :
  wellFormed courses -> idsFresh courses actions = true ->
  wellFormed (handleAll courses actions).
Proof.
  revert courses.
  induction actions as [|a actions IH]; intros courses Hwf Hfresh; [done|].
  simpl in Hfresh. apply andb_prop in Hfresh as [Ha Hrest].
  apply IH; [|exact Hrest].
  destruct a as [now|id updates|id]; simpl.
  - apply addCourse_wellFormed; [done|]. by apply bool_decide_eq_true in Ha.
  - apply updateCourse_wellFormed; [done|]. by apply bool_decide_eq_true in Ha.
  - by apply deleteCourse_wellFormed.
Qed.

(** C8.  The rule of the last course fails on the code.  [deleteCourse]
    guards on the length of the list and then removes every course of the
    given id.  Two courses added within one reading of [Date.now()] get the
    same id, and the delete button of either removes both: with the six
    default courses deleted before, the list is left empty. *)
Theorem duplicate_ids_leave_together :
  handleAll defaultCourses
    [AddCourse 1700000000000; AddCourse 1700000000000;
     DeleteCourse "1"; DeleteCourse "2"; DeleteCourse "3";
     DeleteCourse "4"; DeleteCourse "5"; DeleteCourse "6";
     DeleteCourse "1700000000000"]
  = [].
Proof. by vm_compute. Qed.

(** X23. Where the guard of [deleteCourse] does hold the list.  Deleting
    from a list of exactly one course is refused and leaves the list as it
    is; and as long as the ids of the courses stay distinct (each added course
    gets an id that no course of the list has, and no update changes an id), a
    list that starts with a course still has one after any sequence of adding,
    updating and deleting. *)
Theorem course_list_keeps_one id course courses actions :
  courses <> [] ->
  NoDup (Course.id <$> courses) ->
  idsFresh courses actions = true ->
  deleteCourse id [course] = [course]
  /\ (1 <= length (handleAll courses actions))%nat.
Proof.
  intros Hne Hnd Hfresh. split; [done|].
  destruct (handleAll_wellFormed actions courses) as [Hne' _]; [done..|].
  destruct (handleAll courses actions); [done|simpl; lia].
Qed.

(** The six default courses: five are deleted, the last one stays however
    often its delete button is pressed, also after a course was added and
    removed again. *)
Lemma course_list_keeps_one_witness :
  deleteCourse "6" [Course.mk "6" "Course 6" "" 3] = [Course.mk "6" "Course 6" "" 3]
  /\ (1 <= length
        (handleAll defaultCourses
           [DeleteCourse "1"; DeleteCourse "2"; DeleteCourse "3";
            DeleteCourse "4"; DeleteCourse "5"; DeleteCourse "6";
            AddCourse 1700000000000;
            UpdateCourse "6" (Partial.mk None None (Some "B+") None);
            DeleteCourse "1700000000000"; DeleteCourse "6"; DeleteCourse "6"]))%nat.
Proof.
  apply course_list_keeps_one.
  - discriminate.
  - apply (bool_decide_unpack _). by vm_compute.
  - by vm_compute.
Defined.

End CourseListFacts.

(** ** The study session *)

Module StudyFacts.
Import Flashcards.

Lemma unmarked_insert cards i card mastered :
  cards !! i = Some card ->
  unmarked (<[i := setMastered mastered card]> cards) = unmarked cards.
Proof.
  intros Hi. unfold unmarked. rewrite list_fmap_insert.
  apply list_insert_id. by rewrite list_lookup_fmap, Hi.
Qed.

(** A write of the session's own deck keeps the other decks. *)
Lemma updateDeck_kept deck0 decks0 decks updated :
  Deck.id updated = Deck.id deck0 ->
  Forall2 (kept deck0) decks0 decks ->
  Forall2 (kept deck0) decks0 (updateDeck updated decks).
Proof.
  intros Hid Hkept. unfold updateDeck. apply Forall2_fmap_r.
  eapply Forall2_impl; [exact Hkept|].
  intros d d' [Hsame Hother]. simpl. case_bool_decide as Hd'.
  - split; [congruence|]. intros Hne. congruence.
  - by split.
Qed.

Lemma updateDeck_saved deck0 decks0 decks updated :
  Deck.id updated = Deck.id deck0 ->
  Forall2 (kept deck0) decks0 decks ->
  Forall2
    (fun d d' => if bool_decide (Deck.id d = Deck.id deck0) then d' = updated else d' = d)
    decks0 (updateDeck updated decks).
Proof.
  intros Hid Hkept. unfold updateDeck. apply Forall2_fmap_r.
  eapply Forall2_impl; [exact Hkept|].
  intros d d' [Hsame Hother]. simpl.
  rewrite Hid, Hsame. case_bool_decide; [done|]. by apply Hother.
Qed.

Lemma startStudy_session decks deck :
  Deck.cards deck <> [] -> session decks deck (startStudy decks deck).
Proof.
  intros Hne. unfold session, renders, startStudy; simpl.
  assert (0 < length (Deck.cards deck))%nat
    by (destruct (Deck.cards deck); [done|simpl; lia]).
  repeat split; try done.
  apply Forall_Forall2_diag, Forall_forall. by intros d _.
Qed.

(** Every action has a next state, and the session stays a session. *)
Lemma step_session decks0 deck0 s a :
  session decks0 deck0 s -> wellShuffled a ->
  exists s', step s a = Some s' /\ session decks0 deck0 s'.
Proof.
  intros ([Hidx Hdeck] & Hprop & Hperm & Hkept) Ha.
  destruct a as [ | | |rearrange|mastered| ]; simpl.
  - eexists; split; [done|]. unfold nextCard.
    destruct (_ <? _)%nat eqn:Hlt; [|done].
    apply Nat.ltb_lt in Hlt. repeat split; simpl; try done. lia.
  - eexists; split; [done|]. unfold prevCard.
    destruct (_ <? _)%nat eqn:Hlt; [|done].
    repeat split; simpl; try done. lia.
  - eexists; split; [done|]. done.
  - eexists; split; [done|]. simpl in Ha.
    repeat split; simpl; try done.
    + rewrite (Permutation_length (Ha (Study.cards s))). lia.
    + unfold unmarked. by rewrite (Ha (Study.cards s)).
  - unfold markMastered.
    destruct (lookup_lt_is_Some_2 _ _ Hidx) as [card Hcard]. rewrite Hcard.
    eexists; split; [done|]. repeat split; simpl; try done.
    + by rewrite length_insert.
    + by rewrite unmarked_insert.
    + apply updateDeck_kept; [|done]. simpl. by rewrite Hprop.
  - eexists; split; [done|]. repeat split; simpl; try done. by rewrite Hprop.
Qed.

Lemma run_session decks0 deck0 actions s :
  session decks0 deck0 s -> Forall wellShuffled actions ->
  exists s', run s actions = Some s' /\ session decks0 deck0 s'.
Proof.
  intros Hs Hact. revert s Hs.
  induction Hact as [|a actions Ha Hact IH]; intros s Hs; [by eauto|].
  destruct (step_session _ _ _ _ Hs Ha) as (s1 & Hstep & Hs1).
  destruct (IH _ Hs1) as (s' & Hrun & Hs').
  exists s'. split; [|done]. simpl. by rewrite Hstep.
Qed.

(** The sample deck is shuffled to last-first, the card now shown (card 2)
    is marked mastered, then the session is reset: the working list is back
    in deck order, and card 2 is back to not mastered; closing now writes the
    unmarked list to the deck. *)
Lemma reset_rolls_marks_back :
  exists before after,
    run (startStudy [sampleDeck] sampleDeck) [ShuffleCards reverse; MarkMastered true]
    = Some before
    /\ step before Reset = Some after
    /\ (fun c => (Flashcard.id c, Flashcard.mastered c)) <$> Study.cards before
       = [("2", true); ("1", false)]
    /\ (fun c => (Flashcard.id c, Flashcard.mastered c)) <$> Study.cards after
       = [("1", false); ("2", false)]
    /\ Study.masteredCount after = 0%nat
    /\ Study.decks (handleClose after) = [sampleDeck].
Proof. eexists _, _. by vm_compute. Qed.

(** C5, as the code has it.  After a shuffle and anything done since (marking
    included), reset puts the working list back to the card sequence the
    session was opened on: the same cards in the same order, with the mastery
    flags they had at opening; the current index is 0 and the card is face
    up.  Reset does not touch the deck collection, where the marks made in
    between were written. *)
Theorem shuffle_then_reset decks deck earlier rearrange between :
  Deck.cards deck <> [] ->
  Forall wellShuffled earlier ->
  rearrangement rearrange ->
  Forall wellShuffled between ->
  exists before after,
    run (startStudy decks deck) (earlier ++ ShuffleCards rearrange :: between) = Some before
    /\ step before Reset = Some after
    /\ Study.cards after = Deck.cards deck
    /\ Study.currentIndex after = 0%nat
    /\ Study.isFlipped after = false
    /\ Study.masteredCount after = countMastered (Deck.cards deck)
    /\ Study.decks after = Study.decks before.
Proof.
  intros Hne Hearlier Hre Hbetween.
  destruct (run_session decks deck (earlier ++ ShuffleCards rearrange :: between)
              (startStudy decks deck)) as (before & Hrun & Hbefore).
  { by apply startStudy_session. }
  { apply Forall_app. split; [done|]. by apply Forall_cons. }
  destruct Hbefore as (_ & Hprop & _).
  exists before, (reset before). split; [done|]. split; [done|].
  simpl. rewrite Hprop. by repeat split.
Qed.

Lemma shuffle_then_reset_witness :
  exists before after,
    run (startStudy [sampleDeck] sampleDeck)
      ([NextCard] ++ ShuffleCards reverse :: [MarkMastered true; NextCard; Flip])
    = Some before
    /\ step before Reset = Some after
    /\ Study.cards after = Deck.cards sampleDeck
    /\ Study.currentIndex after = 0%nat
    /\ Study.isFlipped after = false
    /\ Study.masteredCount after = countMastered (Deck.cards sampleDeck)
    /\ Study.decks after = Study.decks before.
Proof.
  apply (shuffle_then_reset [sampleDeck] sampleDeck [NextCard] reverse
           [MarkMastered true; NextCard; Flip]).
  - discriminate.
  - repeat constructor.
  - intros cards. apply reverse_Permutation.
  - repeat constructor.
Defined.

(** The sample deck is shuffled to last-first and the session is closed:
    the deck is saved in the shuffled order. *)
Lemma close_saves_shuffled_order :
  exists s,
    run (startStudy [sampleDeck] sampleDeck) [ShuffleCards reverse] = Some s
    /\ Flashcard.id <$> Deck.cards sampleDeck = ["1"; "2"]
    /\ (fun d => Flashcard.id <$> Deck.cards d) <$> Study.decks (handleClose s)
       = [["2"; "1"]].
Proof. eexists. by vm_compute. Qed.

(** C6, as the code has it.  Closing writes the working list itself to the
    owning deck: the deck gets the working list's mastery flags and also its
    order, so a shuffle that was not reset becomes the deck's saved order.
    The deck's id and name, the other decks and the cards' ids, fronts and
    backs stay: the saved cards are, mastery flags aside, a rearrangement of
    the cards the session was opened on. *)
Theorem close_saves_working_list decks deck actions :
  Deck.cards deck <> [] ->
  Forall wellShuffled actions ->
  exists s,
    run (startStudy decks deck) actions = Some s
    /\ Study.studyMode (handleClose s) = false
    /\ Forall2
         (fun d d' =>
            if bool_decide (Deck.id d = Deck.id deck)
            then d' = Deck.mk (Deck.id deck) (Deck.name deck) (Study.cards s)
            else d' = d)
         decks (Study.decks (handleClose s))
    /\ unmarked (Study.cards s) ≡ₚ unmarked (Deck.cards deck).
Proof.
  intros Hne Hact.
  destruct (run_session decks deck actions (startStudy decks deck))
    as (s & Hrun & _ & Hprop & Hperm & Hkept); [by apply startStudy_session|done|].
  exists s. split; [done|]. split; [done|]. split; [|done].
  simpl. rewrite Hprop. by apply updateDeck_saved.
Qed.

Lemma close_saves_working_list_witness :
  exists s,
    run (startStudy [sampleDeck; Deck.mk "2" (JS.units "Verbs") []] sampleDeck)
      [MarkMastered true; ShuffleCards reverse; NextCard]
    = Some s
    /\ Study.studyMode (handleClose s) = false
    /\ Forall2
         (fun d d' =>
            if bool_decide (Deck.id d = Deck.id sampleDeck)
            then d' = Deck.mk (Deck.id sampleDeck) (Deck.name sampleDeck) (Study.cards s)
            else d' = d)
         [sampleDeck; Deck.mk "2" (JS.units "Verbs") []] (Study.decks (handleClose s))
    /\ unmarked (Study.cards s) ≡ₚ unmarked (Deck.cards sampleDeck).
Proof.
  apply (close_saves_working_list [sampleDeck; Deck.mk "2" (JS.units "Verbs") []] sampleDeck
           [MarkMastered true; ShuffleCards reverse; NextCard]).
  - discriminate.
  - repeat constructor. intros cards. apply reverse_Permutation.
Defined.

End StudyFacts.

(** ** Text: what [trim] and [split] do *)

Module TextFacts.
Import Text.

Lemma blank_Forall s : blank s <-> Forall (fun c => JS.isWhiteSpace c = true) s.
Proof.
  induction s as [|c s IH]; simpl.
  - split; [constructor|done].
  - rewrite Forall_cons. by rewrite IH.
Qed.

Lemma blank_app s t : blank (s ++ t) <-> blank s /\ blank t.
Proof. rewrite !blank_Forall. apply Forall_app. Qed.

Lemma blank_reverse s : blank (reverse s) <-> blank s.
Proof. rewrite !blank_Forall. apply Forall_reverse. Qed.

Lemma blank_bare_nil s : blank s -> bare s -> s = [].
Proof. destruct s as [|c s]; [done|]. simpl. intros [Hc _] Hc'. congruence. Qed.

(** *** What [trim] takes off *)

Lemma trimStart_bare s : bare (JS.trimStart s).
Proof.
  induction s as [|c s IH]; cbn [JS.trimStart bare]; [done|].
  by destruct (JS.isWhiteSpace c) eqn:E.
Qed.

Lemma trimStart_of_bare s : bare s -> JS.trimStart s = s.
Proof. destruct s as [|c s]; cbn [JS.trimStart bare]; [done|]. by intros ->. Qed.

Lemma trimStart_front s : exists before, s = before ++ JS.trimStart s /\ blank before.
Proof.
  induction s as [|c s (before & Hs & Hbefore)]; cbn [JS.trimStart].
  - by exists [].
  - destruct (JS.isWhiteSpace c) eqn:E.
    + exists (c :: before). split; [by rewrite Hs at 1|done].
    + by exists [].
Qed.

Lemma trimEnd_nil s : JS.trimEnd s = [] -> blank s.
Proof.
  induction s as [|c s IH]; cbn [JS.trimEnd blank]; [done|].
  destruct (JS.isWhiteSpace c) eqn:E; [|done].
  case_bool_decide as Ht; [|done]. intros _. split; [done|by apply IH].
Qed.

Lemma trimEnd_back s : exists after, s = JS.trimEnd s ++ after /\ blank after.
Proof.
  induction s as [|c s (after & Hs & Hafter)]; cbn [JS.trimEnd].
  - by exists [].
  - destruct (JS.isWhiteSpace c && bool_decide (JS.trimEnd s = [])) eqn:E.
    + apply andb_prop in E as [Hc Ht%bool_decide_eq_true].
      exists (c :: s). split; [done|]. split; [done|by apply trimEnd_nil].
    + exists after. split; [by rewrite Hs at 1|done].
Qed.

Lemma trimEnd_bare s : bare s -> bare (JS.trimEnd s).
Proof.
  destruct s as [|c s]; cbn [JS.trimEnd bare]; [done|]. intros Hc. by rewrite Hc.
Qed.

Lemma trimEnd_last s : bare (reverse (JS.trimEnd s)).
Proof.
  induction s as [|c s IH]; cbn [JS.trimEnd]; [done|].
  destruct (JS.isWhiteSpace c && bool_decide (JS.trimEnd s = [])) eqn:E; [done|].
  rewrite reverse_cons. destruct (reverse (JS.trimEnd s)) as [|c' rest] eqn:Hrev; [|done].
  apply (f_equal reverse) in Hrev. rewrite reverse_involutive in Hrev. simpl in Hrev.
  rewrite Hrev in E. rewrite bool_decide_eq_true_2, andb_true_r in E by done. done.
Qed.

(** [trim] takes off the white space at the two ends, and no more. *)
Lemma trim_stripped s : stripped s (JS.trim s).
Proof.
  unfold JS.trim. destruct (trimStart_front s) as (before & Hs & Hbefore).
  destruct (trimEnd_back (JS.trimStart s)) as (after & Ht & Hafter).
  exists before, after. split; [by rewrite <- Ht|]. split; [done|]. split; [done|].
  split; [apply trimEnd_bare, trimStart_bare|apply trimEnd_last].
Qed.

Lemma front_unique before before' t t' :
  blank before -> blank before' -> bare t -> bare t' ->
  t <> [] -> before ++ t = before' ++ t' -> before = before' /\ t = t'.
Proof.
  revert before'. induction before as [|c before IH]; intros [|c' before'] Hb Hb' Ht Ht' Hne;
    simpl; intros Heq.
  - done.
  - destruct t as [|d t]; [done|]. injection Heq as -> _.
    destruct Hb' as [Hc' _]. simpl in Ht. congruence.
  - destruct t' as [|d t']; [done|]. injection Heq as -> _.
    destruct Hb as [Hc _]. simpl in Ht'. congruence.
  - injection Heq as -> Heq. destruct Hb as [_ Hb], Hb' as [_ Hb'].
    destruct (IH before' Hb Hb' Ht Ht' Hne Heq) as [-> ->]. done.
Qed.

(** What is left is determined. *)
Lemma stripped_unique s t t' : stripped s t -> stripped s t' -> t = t'.
Proof.
  intros (before & after & Hs & Hbefore & Hafter & Hfront & Hback)
         (before' & after' & Hs' & Hbefore' & Hafter' & Hfront' & Hback').
  assert (forall u u' b a b' a',
            b ++ u ++ a = b' ++ u' ++ a' -> blank b -> blank a -> blank b' -> blank a' ->
            tidy u -> tidy u' -> u = [] -> u' = []) as Hempty.
  { intros u u' b a b' a' Heq Hb Ha Hb' Ha' _ [Hu' _] ->. simpl in Heq.
    apply blank_bare_nil; [|done].
    assert (blank (b' ++ u' ++ a')) as Hall by (rewrite <- Heq; by apply blank_app).
    by apply blank_app in Hall as [_ [? _]%blank_app]. }
  destruct (decide (t = [])) as [->|Hne].
  { symmetry. apply (Hempty [] t' before after before' after'); try done. congruence. }
  destruct (decide (t' = [])) as [->|Hne'].
  { apply (Hempty [] t before' after' before after); try done. congruence. }
  rewrite Hs' in Hs.
  assert (bare (t ++ after)) as H1 by (destruct t; [done|apply Hfront]).
  assert (bare (t' ++ after')) as H2 by (destruct t'; [done|apply Hfront']).
  destruct (front_unique before' before (t' ++ after') (t ++ after)) as [_ Heq];
    [done|done|done|done|by destruct t'|done|].
  apply (f_equal reverse) in Heq. rewrite !reverse_app in Heq.
  destruct (front_unique (reverse after') (reverse after) (reverse t') (reverse t))
    as [_ Hrev]; [by apply blank_reverse|by apply blank_reverse|done|done| |done|].
  { intros Hnil. apply (f_equal reverse) in Hnil. by rewrite reverse_involutive in Hnil. }
  apply (f_equal reverse) in Hrev. by rewrite !reverse_involutive in Hrev.
Qed.

Lemma stripped_trim s t : stripped s t -> t = JS.trim s.
Proof. intros Ht. apply (stripped_unique s); [done|apply trim_stripped]. Qed.

(** Text that is all white space trims to nothing, and only such text. *)
Lemma trim_blank s : blank s <-> JS.trim s = [].
Proof.
  split.
  - intros Hs. symmetry. apply stripped_trim. exists s, []. rewrite app_nil_r.
    by repeat split.
  - intros Ht. destruct (trim_stripped s) as (before & after & Hs & Hb & Ha & _).
    rewrite Ht in Hs. rewrite Hs. by apply blank_app.
Qed.

(** *** What [split] cuts *)

Lemma split_nonempty sep s : JS.split sep s <> [].
Proof.
  destruct s as [|c s]; simpl; [done|].
  case_bool_decide; [done|]. by destruct (JS.split sep s).
Qed.

Lemma joined_cons sep field fields :
  fields <> [] -> joined sep (field :: fields) = field ++ sep :: joined sep fields.
Proof. by destruct fields. Qed.

Lemma split_separated sep s : separated sep s (JS.split sep s).
Proof.
  split; [apply split_nonempty|].
  induction s as [|c s [IHj IHf]]; simpl.
  - split; [done|]. apply Forall_singleton. apply not_elem_of_nil.
  - pose proof (split_nonempty sep s) as Hne. case_bool_decide as Hc.
    + subst c. split.
      * rewrite joined_cons by done. simpl. by rewrite IHj.
      * apply Forall_cons. split; [apply not_elem_of_nil|done].
    + destruct (JS.split sep s) as [|field fields] eqn:E; [done|].
      apply Forall_cons in IHf as [Hfield Hfields]. split.
      * rewrite <- IHj. by destruct fields.
      * apply Forall_cons. split; [|done]. rewrite not_elem_of_cons. by split.
Qed.

Lemma separated_unique sep s fields fields' :
  separated sep s fields -> separated sep s fields' -> fields = fields'.
Proof.
  intros (Hne & Hj & Hf) (Hne' & Hj' & Hf'). rewrite <- Hj' in Hj. clear Hj' s.
  revert fields' Hne Hne' Hf' Hj.
  induction fields as [|field fields IH]; intros [|field' fields'] Hne Hne' Hf' Hj; try done.
  apply Forall_cons in Hf as [Hfield Hfields]. apply Forall_cons in Hf' as [Hfield' Hfields'].
  assert (forall (f f' : JS.text) (r r' : JS.text),
            sep ∉ f -> sep ∉ f' -> f ++ sep :: r = f' ++ sep :: r' -> f = f' /\ r = r')
    as Hcut.
  { clear. induction f as [|c f IHf]; intros [|c' f'] r r' Hf Hf'; simpl; intros Heq.
    - by injection Heq.
    - injection Heq as <- _. exfalso. apply Hf'. by left.
    - injection Heq as -> _. exfalso. apply Hf. by left.
    - injection Heq as -> Heq. apply not_elem_of_cons in Hf as [_ Hf].
      apply not_elem_of_cons in Hf' as [_ Hf'].
      by destruct (IHf f' r r' Hf Hf' Heq) as [-> ->]. }
  assert (forall (f f' : JS.text) (r' : JS.text),
            sep ∉ f -> f = f' ++ sep :: r' -> False) as Hwhole.
  { intros f f' r' Hf ->. apply Hf. rewrite elem_of_app. right. by left. }
  destruct fields as [|g gs], fields' as [|g' gs'].
  - simpl in Hj. by subst.
  - exfalso. rewrite (joined_cons sep field') in Hj by done.
    exact (Hwhole _ _ _ Hfield Hj).
  - exfalso. rewrite (joined_cons sep field) in Hj by done. symmetry in Hj.
    exact (Hwhole _ _ _ Hfield' Hj).
  - rewrite !joined_cons in Hj by done.
    destruct (Hcut _ _ _ _ Hfield Hfield' Hj) as [-> Hrest].
    f_equal. by apply IH.
Qed.

Lemma separated_split sep s fields : separated sep s fields -> fields = JS.split sep s.
Proof. intros Hs. apply (separated_unique sep s); [done|apply split_separated]. Qed.

Lemma split_whole sep s : sep ∉ s -> JS.split sep s = [s].
Proof.
  intros Hs. symmetry. apply separated_split. split; [done|]. split; [done|].
  by apply Forall_singleton.
Qed.

(** White space holds no comma. *)
Lemma blank_without sep s : JS.isWhiteSpace sep = false -> blank s -> sep ∉ s.
Proof.
  intros Hsep. induction s as [|c s IH]; simpl; [intros _; apply not_elem_of_nil|].
  intros [Hc Hs]. rewrite not_elem_of_cons. split; [congruence|by apply IH].
Qed.

(** *** Ids *)

Lemma pretty_N_go_dashless x s : dashless s -> dashless (pretty_N_go x s).
Proof.
  revert s. induction (N.lt_wf_0 x) as [x _ IH]; intros s Hs.
  assert (x = 0 \/ 0 < x)%N as [->|Hx] by lia.
  - by rewrite pretty_N_go_0.
  - rewrite pretty_N_go_step by done. apply IH; [by apply N.div_lt|].
    split; [|done]. unfold pretty_N_char. by repeat case_match.
Qed.

(** A number in decimal has no ["-"]. *)
Lemma pretty_N_dashless (x : N) : dashless (pretty x).
Proof.
  unfold pretty, pretty_N. case_decide; [done|]. by apply pretty_N_go_dashless.
Qed.

(** What follows the first ["-"] is determined. *)
Lemma dash_splits s1 s2 r1 r2 :
  dashless s1 -> dashless s2 ->
  s1 +:+ "-" +:+ r1 = s2 +:+ "-" +:+ r2 -> r1 = r2.
Proof.
  revert s2. induction s1 as [|c s1 IH]; intros [|c' s2] H1 H2 Heq.
  - by injection Heq.
  - injection Heq as <- _. by destruct H2.
  - injection Heq as -> _. by destruct H1.
  - injection Heq as _ Heq. destruct H1, H2. by eapply IH.
Qed.

End TextFacts.

(** ** Bulk import *)

Module ImportFacts.
Import Flashcards.

(** A card passes the filter exactly when its record has two non-blank
    leading fields. *)
Lemma csvCard_kept now index record :
  (if bool_decide (JS.truthyText (Flashcard.front (csvCard now index record))
                   && JS.truthyText (Flashcard.back (csvCard now index record)) = true)
   then Some (faces (csvCard now index record)) else None)
  = recordFields record.
Proof.
  unfold recordFields, csvCard, faces, sides. cbn [Flashcard.front Flashcard.back].
  destruct (JS.split comma record) as [|front [|back fields]]; simpl.
  - done.
  - rewrite andb_false_r. by rewrite bool_decide_eq_false_2.
  - destruct (JS.truthyText (JS.trim front) && JS.truthyText (JS.trim back)) eqn:E.
    + by rewrite bool_decide_eq_true_2.
    + by rewrite bool_decide_eq_false_2.
Qed.

Lemma newCards_from (card : nat -> JS.text -> Flashcard.t) records :
  (forall index record,
     (if bool_decide (JS.truthyText (Flashcard.front (card index record))
                      && JS.truthyText (Flashcard.back (card index record)) = true)
      then Some (faces (card index record)) else None)
     = recordFields record) ->
  faces <$>
    filter
      (fun c => JS.truthyText (Flashcard.front c) && JS.truthyText (Flashcard.back c) = true)
      (imap card records)
  = omap recordFields records.
Proof.
  revert card. induction records as [|record records IH]; intros card Hcard; [done|].
  rewrite imap_cons, filter_cons. cbn [omap list_omap].
  rewrite <- (Hcard 0%nat record), <- (IH (card ∘ S)) by (intros; apply Hcard).
  case_decide as Hkeep.
  - by rewrite bool_decide_eq_true_2.
  - by rewrite bool_decide_eq_false_2.
Qed.

Lemma newCards_fields clock text :
  faces <$> newCards clock text = omap recordFields (csvLines text).
Proof.
  unfold newCards. apply newCards_from. intros. apply csvCard_kept.
Qed.

Lemma newCards_unmastered clock text :
  Forall (fun card => Flashcard.mastered card = false) (newCards clock text).
Proof.
  unfold newCards. apply Forall_forall. intros card [_ Hin]%list_elem_of_filter.
  by apply elem_of_lookup_imap in Hin as (index & record & -> & _).
Qed.

(** A blank line gives no card, so the lines [csvLines] skips are not
    missed. *)
Lemma blank_line_unread line :
  JS.truthyText (JS.trim line) = false -> recordFields line = None.
Proof.
  unfold JS.truthyText. rewrite negb_false_iff, bool_decide_eq_true.
  intros Hblank%TextFacts.trim_blank. unfold recordFields.
  by rewrite (TextFacts.split_whole comma line)
    by (by apply TextFacts.blank_without).
Qed.

Lemma csvLines_fields text :
  omap recordFields (csvLines text) = omap recordFields (JS.split newline text).
Proof.
  unfold csvLines. induction (JS.split newline text) as [|line lines IH]; [done|].
  rewrite filter_cons. cbn [omap list_omap].
  destruct (JS.truthyText (JS.trim line)) eqn:E.
  - rewrite decide_True by done. cbn [omap list_omap]. by rewrite IH.
  - rewrite decide_False by done. by rewrite (blank_line_unread line E), IH.
Qed.

(** [recordFields] reads a record as [reads] says, and no other reading does. *)
Lemma sides_reading first second front back :
  Text.stripped first front -> Text.stripped second back ->
  sides first second
  = (if decide (front <> [] /\ back <> []) then Some (front, back) else None).
Proof.
  intros ->%TextFacts.stripped_trim ->%TextFacts.stripped_trim.
  unfold sides, JS.truthyText.
  destruct (decide (JS.trim first = [])) as [Hf|Hf].
  { rewrite (bool_decide_eq_true_2 _ Hf). simpl. by rewrite decide_False by tauto. }
  rewrite (bool_decide_eq_false_2 _ Hf).
  destruct (decide (JS.trim second = [])) as [Hb|Hb].
  { rewrite (bool_decide_eq_true_2 _ Hb). simpl. by rewrite decide_False by tauto. }
  rewrite (bool_decide_eq_false_2 _ Hb). simpl. by rewrite decide_True.
Qed.

Lemma recordFields_reads record : reads record (recordFields record).
Proof.
  exists (JS.split comma record). split; [apply TextFacts.split_separated|].
  unfold recordFields. destruct (JS.split comma record) as [|first [|second rest]]; try done.
  exists (JS.trim first), (JS.trim second).
  split; [apply TextFacts.trim_stripped|]. split; [apply TextFacts.trim_stripped|].
  apply sides_reading; apply TextFacts.trim_stripped.
Qed.

Lemma reads_recordFields record reading :
  reads record reading -> reading = recordFields record.
Proof.
  intros (fields & ->%TextFacts.separated_split & Hreading). unfold recordFields.
  destruct (JS.split comma record) as [|first [|second rest]]; try done.
  destruct Hreading as (front & back & Hfront & Hback & ->).
  symmetry. by apply sides_reading.
Qed.

Lemma readings_recordFields records readings :
  Forall2 reads records readings -> readings = recordFields <$> records.
Proof.
  induction 1 as [|record reading records readings Hreads _ IH]; [done|].
  by rewrite fmap_cons, <- IH, (reads_recordFields _ _ Hreads).
Qed.

(** The cards of the import are the readings of the records of the payload. *)
Lemma newCards_read clock text records readings :
  Text.separated newline text records ->
  Forall2 reads records readings ->
  faces <$> newCards clock text = cardsRead readings.
Proof.
  intros ->%TextFacts.separated_split ->%readings_recordFields.
  rewrite newCards_fields, csvLines_fields. unfold cardsRead.
  induction (JS.split newline text) as [|line lines IH]; [done|].
  rewrite fmap_cons. cbn [omap list_omap]. rewrite IH. simpl.
  by destruct (recordFields line).
Qed.

(** Up to one comma, the split at every comma is the split at the first. *)
Lemma split_length sep record :
  length (JS.split sep record) = S (length (filter (fun c => c = sep) record)).
Proof.
  induction record as [|c record IH]; [done|]. rewrite filter_cons. cbn [JS.split].
  pose proof (TextFacts.split_nonempty sep record) as Hne.
  case_bool_decide as Hc.
  - rewrite decide_True by done. simpl. by rewrite IH.
  - rewrite decide_False by done. rewrite <- IH.
    by destruct (JS.split sep record).
Qed.

Lemma split_no_comma record field :
  JS.split comma record = [field] -> splitFirstComma record = None.
Proof.
  revert field. induction record as [|c record IH]; intros field; simpl; [done|].
  pose proof (TextFacts.split_nonempty comma record) as Hne.
  case_bool_decide; [by destruct (JS.split comma record)|].
  destruct (JS.split comma record) as [|field' [|? ?]] eqn:E; try done.
  intros _. by rewrite (IH field').
Qed.

Lemma split_single record field : JS.split comma record = [field] -> field = record.
Proof.
  revert field. induction record as [|c record IH]; intros field; simpl; [congruence|].
  pose proof (TextFacts.split_nonempty comma record) as Hne.
  case_bool_decide; [by destruct (JS.split comma record)|].
  destruct (JS.split comma record) as [|field' [|? ?]] eqn:E; try done.
  intros [= <-]. by rewrite (IH field').
Qed.

Lemma split_one_comma record front back :
  JS.split comma record = [front; back] -> splitFirstComma record = Some (front, back).
Proof.
  revert front. induction record as [|c record IH]; intros front; simpl; [done|].
  case_bool_decide.
  - intros [= <- Hback]. by rewrite (split_single _ _ Hback).
  - destruct (JS.split comma record) as [|front' fields] eqn:E; [done|].
    intros [= <- ->]. by rewrite (IH front').
Qed.

Lemma reads_first_comma record reading :
  (commas record <= 1)%nat -> reads record reading -> readsFirstComma record reading.
Proof.
  unfold commas. intros Hcommas (fields & ->%TextFacts.separated_split & Hreading).
  pose proof (split_length comma record) as Hlen. unfold readsFirstComma.
  destruct (JS.split comma record) as [|first [|second [|? ?]]] eqn:E;
    simpl in Hlen; try lia.
  - by rewrite (split_no_comma _ _ E).
  - by rewrite (split_one_comma _ _ _ E).
Qed.

(** A record whose answer holds a comma: the import keeps the answer up to
    that comma, the split on the first comma keeps all of it. *)
Lemma import_cuts_at_second_comma :
  faces <$> newCards (fun _ => 1700000000000%N)
              (JS.units "Capital of France?,Paris, of course")
  = [(JS.units "Capital of France?", JS.units "Paris")]
  /\ readsFirstComma (JS.units "Capital of France?,Paris, of course")
       (Some (JS.units "Capital of France?", JS.units "Paris, of course")).
Proof.
  split; [by vm_compute|].
  unfold readsFirstComma.
  replace (splitFirstComma (JS.units "Capital of France?,Paris, of course"))
    with (Some (JS.units "Capital of France?", JS.units "Paris, of course"))
    by (by vm_compute).
  exists (JS.units "Capital of France?"), (JS.units "Paris, of course").
  split; [exists [], []; by vm_compute|].
  split; [exists [], []; by vm_compute|]. by vm_compute.
Qed.

(** C7, as the code has it.  The import appends the new cards, unmastered, to
    the decks of the target id and leaves the other decks alone.  The new
    cards are read off the payload record by record: the payload is cut at its
    newlines into records, each record at its commas into fields; the first
    two fields, with the white space at their ends taken off, are the front
    and the back, so what follows a second comma is left out (for records
    with at most one comma this is the split on the first comma); a record
    with no comma, or whose front or back is then empty, is dropped; the
    other records give the cards, in payload order.  The payload of the
    example gives exactly the cards Q1/A1 and Q2/A2. *)
Theorem import_reads_two_fields clock deckId text decks :
  Forall2
    (fun d d' =>
       Deck.id d' = Deck.id d /\ Deck.name d' = Deck.name d
       /\ Deck.cards d'
          = (if bool_decide (Deck.id d = deckId)
             then Deck.cards d ++ newCards clock text else Deck.cards d))
    decks (importCSV clock deckId (Some text) decks)
  /\ Forall (fun card => Flashcard.mastered card = false) (newCards clock text)
  /\ (exists records readings,
        Text.separated newline text records /\ Forall2 reads records readings)
  /\ (forall records readings,
        Text.separated newline text records ->
        Forall2 reads records readings ->
        faces <$> newCards clock text = cardsRead readings
        /\ (Forall (fun record => (commas record <= 1)%nat) records ->
            Forall2 readsFirstComma records readings))
  /\ faces <$> newCards clock examplePayload
     = [(JS.units "Q1", JS.units "A1"); (JS.units "Q2", JS.units "A2")].
Proof.
  split; [|split; [|split; [|split]]].
  - cbn [importCSV]. apply Forall2_fmap_r, Forall_Forall2_diag, Forall_forall.
    intros d _. unfold compose. by case_bool_decide.
  - apply newCards_unmastered.
  - exists (JS.split newline text), (recordFields <$> JS.split newline text).
    split; [apply TextFacts.split_separated|].
    apply Forall2_fmap_r, Forall_Forall2_diag, Forall_forall.
    intros record _. apply recordFields_reads.
  - intros records readings Hrecords Hreadings.
    split; [by apply (newCards_read clock text records)|].
    intros Hcommas. clear Hrecords.
    induction Hreadings as [|record reading records readings Hreads _ IH];
      [constructor|].
    apply Forall_cons in Hcommas as [Hrecord Hcommas].
    constructor; [by apply reads_first_comma|by apply IH].
  - rewrite newCards_fields. by vm_compute.
Qed.

(** White space of several kinds is taken off, a CR before the newline
    included; the blank line, the record without a comma and the record
    without a front give no card. *)
Lemma import_reads_two_fields_witness :
  faces <$> newCards (fun _ => 1700000000000%N) spacedPayload
  = [(JS.units "Q1", JS.units "A1"); (JS.units "Q2", JS.units "A2")]
  /\ Forall2 readsFirstComma (JS.split newline spacedPayload)
       [Some (JS.units "Q1", JS.units "A1"); None; None;
        Some (JS.units "Q2", JS.units "A2"); None].
Proof.
  destruct (import_reads_two_fields (fun _ => 1700000000000%N) "1" spacedPayload
              [sampleDeck]) as (_ & _ & _ & Hread & _).
  destruct (Hread (JS.split newline spacedPayload)
              [Some (JS.units "Q1", JS.units "A1"); None; None;
               Some (JS.units "Q2", JS.units "A2"); None]) as [Hcards Hfirst].
  - apply TextFacts.split_separated.
  - change (Forall2 reads (JS.split newline spacedPayload)
              (recordFields <$> JS.split newline spacedPayload)).
    apply Forall2_fmap_r, Forall_Forall2_diag, Forall_forall.
    intros record _. apply recordFields_reads.
  - split; [exact Hcards|]. apply Hfirst.
    apply (bool_decide_unpack _). by vm_compute.
Defined.

End ImportFacts.

(** ** Deleting a deck *)

Module DeckFacts.
Import Flashcards.

(** C10. [deleteDeck] removes the decks with the given id, whatever the
    collection: the other decks stay, in their order, and no deck with that id
    is left.  There is no rule of a last deck: deleting the only deck leaves
    the collection empty. *)
Theorem deleteDeck_removes decks deckId deck :
  (forall d, d ∈ deleteDeck deckId decks <-> d ∈ decks /\ Deck.id d <> deckId)
  /\ deleteDeck deckId decks `sublist_of` decks
  /\ deleteDeck (Deck.id deck) [deck] = [].
Proof.
  unfold deleteDeck. split; [|split].
  - intros d. rewrite list_elem_of_filter. tauto.
  - apply sublist_filter.
  - rewrite filter_cons. by rewrite decide_False by (intros H; by apply H).
Qed.

End DeckFacts.

(** * More properties of the two components *)

Module ListFacts.

Lemma filter_all {A} (P : A -> Prop) `{forall x, Decision (P x)} (l : list A) :
  Forall P l -> filter P l = l.
Proof.
  induction 1 as [|x l Hx Hl IH]; [done|].
  by rewrite filter_cons, decide_True, IH.
Qed.

End ListFacts.

(** ** [NaN] spreads *)

Module NaNFacts.

Lemma Prim2SF_nan x : Prim2SF x = S754_nan -> x = JS.NaN.
Proof. intros H. by apply Prim2SF_inj. Qed.

Lemma mul_nan_l x : (JS.NaN * x)%float = JS.NaN.
Proof. apply Prim2SF_nan. by rewrite mul_spec. Qed.

Lemma add_nan_l x : (JS.NaN + x)%float = JS.NaN.
Proof. apply Prim2SF_nan. by rewrite add_spec. Qed.

Lemma add_nan_r x : (x + JS.NaN)%float = JS.NaN.
Proof.
  apply Prim2SF_nan. rewrite add_spec. change (Prim2SF JS.NaN) with S754_nan.
  by destruct (Prim2SF x) as [[]|[]| |[] ? ?].
Qed.

Lemma sub_nan_r x : (x - JS.NaN)%float = JS.NaN.
Proof.
  apply Prim2SF_nan. rewrite sub_spec. change (Prim2SF JS.NaN) with S754_nan.
  by destruct (Prim2SF x) as [[]|[]| |[] ? ?].
Qed.

Lemma div_nan_l x : (JS.NaN / x)%float = JS.NaN.
Proof. apply Prim2SF_nan. by rewrite div_spec. Qed.

Lemma gt_nan_l y : JS.gt JS.NaN y = false.
Proof.
  unfold JS.gt. rewrite ltb_spec. change (Prim2SF JS.NaN) with S754_nan.
  by destruct (Prim2SF y) as [[]|[]| |[] ? ?].
Qed.

Lemma lt_nan_l y : JS.lt JS.NaN y = false.
Proof. unfold JS.lt. by rewrite ltb_spec. Qed.

Lemma foldl_add_nan xs : foldl PrimFloat.add JS.NaN xs = JS.NaN.
Proof. induction xs as [|x xs IH]; simpl; [done|]. by rewrite add_nan_l. Qed.

(** One [NaN] among the numbers added makes the total [NaN]. *)
Lemma sum_nan xs : JS.NaN ∈ xs -> JS.sum xs = JS.NaN.
Proof.
  unfold JS.sum. generalize 0%float as acc.
  induction xs as [|x xs IH]; intros acc Hin; [by apply elem_of_nil in Hin|].
  apply elem_of_cons in Hin as [<-|Hin]; simpl.
  - by rewrite add_nan_r, foldl_add_nan.
  - by apply IH.
Qed.

End NaNFacts.

(** ** The calculator on grades it does not know, and on either scale *)

Module GPAExtra.
Import GPACalculator.

Lemma gradePoints_unknown scale course courses :
  course ∈ contributing courses ->
  gradeValues scale !! Course.grade course = None ->
  JS.NaN ∈ gradePoints scale <$> contributing courses.
Proof.
  intros Hin Hgrade. apply list_elem_of_fmap. exists course. split; [|done].
  unfold gradePoints. rewrite Hgrade. simpl. by rewrite NaNFacts.mul_nan_l.
Qed.

(** X1. A contributing course whose grade is not a key of the grade table
    makes the GPA [NaN]. *)
Theorem gpa_unknown_grade courses scale course :
  course ∈ contributing courses ->
  gradeValues scale !! Course.grade course = None ->
  gpa courses scale = JS.NaN.
Proof.
  intros Hin Hgrade. rewrite GPAFacts.gpa_average. unfold average.
  pose proof (gradePoints_unknown scale course courses Hin Hgrade) as Hnan.
  destruct (contributing courses) as [|c cs] eqn:E; [by apply elem_of_nil in Hin|].
  rewrite NaNFacts.sum_nan by done. apply NaNFacts.div_nan_l.
Qed.

Lemma gpa_unknown_grade_witness :
  gpa [Course.mk "1" "Statics" "A" 3; Course.mk "2" "Optics" "E" 3] Scale_4_0 = JS.NaN.
Proof.
  apply (gpa_unknown_grade _ _ (Course.mk "2" "Optics" "E" 3)).
  - vm_compute. right. left.
  - by vm_compute.
Defined.

Section Target.
Variable parseFloat : string -> float.

(** X2. With such a course among the contributing ones, a target that parses
    and is at most [maxGPA], and credits remaining, the analysis answers
    "possible" and reports [NaN] as the GPA needed. *)
Theorem analysis_unknown_grade targetGPA scale courses totalCreditsRequired course :
  let currentCredits := JS.sum (Course.credits <$> contributing courses) in
  let remainingCredits := (totalCreditsRequired - currentCredits)%float in
  JS.truthy targetGPA = true ->
  JS.isNaN (parseFloat targetGPA) = false ->
  JS.le (parseFloat targetGPA) (maxGPA scale) = true ->
  JS.gt remainingCredits 0 = true ->
  course ∈ contributing courses ->
  gradeValues scale !! Course.grade course = None ->
  targetGPAAnalysis parseFloat targetGPA scale courses totalCreditsRequired
  = Some (Analysis.mk true (NeedInRemaining JS.NaN remainingCredits) (Figure JS.NaN)).
Proof.
  intros currentCredits remainingCredits Ht Hn Hle Hrem Hin Hgrade.
  unfold targetGPAAnalysis. cbv zeta.
  rewrite Ht, Hn, (JSFacts.le_not_gt _ _ Hle). cbn [negb orb].
  rewrite GPAFacts.accumulate_contributing.
  fold currentCredits remainingCredits.
  rewrite (JSFacts.gt_not_le _ _ Hrem).
  rewrite NaNFacts.sum_nan by (by eapply gradePoints_unknown).
  by rewrite NaNFacts.sub_nan_r, NaNFacts.div_nan_l, NaNFacts.gt_nan_l, NaNFacts.lt_nan_l.
Qed.

(** X3. The analysis is [null] exactly when the target is empty or does not
    parse; every other input gets an answer. *)
Theorem analysis_null_iff targetGPA scale courses totalCreditsRequired :
  targetGPAAnalysis parseFloat targetGPA scale courses totalCreditsRequired = None
  <-> targetGPA = "" \/ JS.isNaN (parseFloat targetGPA) = true.
Proof.
  unfold targetGPAAnalysis, JS.truthy. cbv zeta.
  destruct (decide (targetGPA = "")) as [->|Hne].
  - rewrite bool_decide_eq_true_2 by done. simpl. tauto.
  - rewrite bool_decide_eq_false_2 by done. simpl.
    destruct (JS.isNaN (parseFloat targetGPA)); [tauto|].
    split; [|intros [?|?]; done].
    destruct (JS.gt _ _); [done|].
    destruct (accumulate scale courses) as [points credits].
    destruct (JS.le _ _); [done|].
    destruct (JS.gt _ _); [done|]. by destruct (JS.lt _ _).
Qed.

(** X4. An answer "possible" that carries a figure never asks for more than
    [maxGPA] and never for less than 0. *)
Theorem feasible_in_range targetGPA scale courses totalCreditsRequired result x :
  targetGPAAnalysis parseFloat targetGPA scale courses totalCreditsRequired = Some result ->
  Analysis.possible result = true ->
  Analysis.requiredGPA result = Figure x ->
  JS.gt x (maxGPA scale) = false /\ JS.lt x 0 = false.
Proof.
  unfold targetGPAAnalysis. cbv zeta.
  destruct (negb _ || _); [done|].
  destruct (JS.gt (parseFloat targetGPA) _); [by intros [= <-]|].
  destruct (accumulate scale courses) as [points credits].
  destruct (JS.le _ _); [by intros [= <-]|].
  destruct (JS.gt _ _) eqn:Hgt; [by intros [= <-]|].
  destruct (JS.lt _ _) eqn:Hlt; intros [= <-] _ [= <-]; [|done].
  by destruct scale.
Qed.

End Target.

Lemma analysis_unknown_grade_witness :
  targetGPAAnalysis (parseFloatOf [("3.5", 3.5%float)]) "3.5" Scale_4_0
    [Course.mk "1" "Statics" "A" 3; Course.mk "2" "Optics" "E" 3] 120
  = Some (Analysis.mk true (NeedInRemaining JS.NaN 114) (Figure JS.NaN)).
Proof.
  apply (analysis_unknown_grade (parseFloatOf [("3.5", 3.5%float)]) "3.5" Scale_4_0
           [Course.mk "1" "Statics" "A" 3; Course.mk "2" "Optics" "E" 3] 120
           (Course.mk "2" "Optics" "E" 3)); try by vm_compute.
  vm_compute. right. left.
Defined.

(** A GPA of 4.0 over 60 of 120 credits and a target of 1.0: possible, 0 needed. *)
Lemma feasible_in_range_witness :
  JS.gt 0 (maxGPA Scale_4_0) = false /\ JS.lt 0 0 = false.
Proof.
  apply (feasible_in_range (parseFloatOf [("1.0", 1.0%float)]) "1.0" Scale_4_0
           [Course.mk "1" "Statics" "A" 60] 120
           (Analysis.mk true TargetAlreadyExceeded (Figure 0%float)) 0%float);
    by vm_compute.
Defined.

Lemma gradeValues_scale grade :
  grade <> "A+" -> gradeValues Scale_4_0 !! grade = gradeValues Scale_4_3 !! grade.
Proof.
  intros Hne. unfold gradeValues, GRADE_VALUES_4_0, GRADE_VALUES_4_3.
  rewrite !list_to_map_cons. simpl. by rewrite !(lookup_insert_ne _ "A+") by done.
Qed.

(** X5. The two scales give the same GPA unless a contributing course has the
    grade A+. *)
Theorem gpa_scale_only_top_grade courses :
  Forall (fun c => Course.grade c <> "A+") (contributing courses) ->
  gpa courses Scale_4_0 = gpa courses Scale_4_3.
Proof.
  intros Hgrades. rewrite !GPAFacts.gpa_average. unfold average.
  destruct (contributing courses) as [|c cs] eqn:E; [done|].
  f_equal. f_equal. apply Forall_fmap_ext_1.
  eapply Forall_impl; [exact Hgrades|].
  intros c' Hc'. unfold gradePoints. by rewrite (gradeValues_scale _ Hc').
Qed.

Lemma gpa_scale_only_top_grade_witness :
  gpa transcript Scale_4_0 = gpa transcript Scale_4_3.
Proof.
  apply gpa_scale_only_top_grade. vm_compute. by repeat constructor.
Defined.

(** *** The handlers and the GPA *)

Lemma contributing_addCourse now courses :
  contributing (addCourse now courses) = contributing courses.
Proof.
  unfold contributing, addCourse. rewrite filter_app, filter_cons, filter_nil.
  rewrite decide_False by done. apply app_nil_r.
Qed.

(** X6. Adding a course changes neither the GPA nor the target analysis: the
    new course has no grade. *)
Theorem addCourse_keeps_gpa parseFloat now courses scale targetGPA totalCreditsRequired :
  gpa (addCourse now courses) scale = gpa courses scale
  /\ targetGPAAnalysis parseFloat targetGPA scale (addCourse now courses) totalCreditsRequired
     = targetGPAAnalysis parseFloat targetGPA scale courses totalCreditsRequired.
Proof.
  assert (gpa (addCourse now courses) scale = gpa courses scale) as Hgpa
    by (by rewrite !GPAFacts.gpa_average, contributing_addCourse).
  split; [done|]. unfold targetGPAAnalysis.
  by rewrite Hgpa, !GPAFacts.accumulate_contributing, contributing_addCourse.
Qed.

Lemma contributing_fmap (f : Course.t -> Course.t) courses :
  (forall c, Course.grade (f c) = Course.grade c /\ Course.credits (f c) = Course.credits c) ->
  contributing (f <$> courses) = f <$> contributing courses.
Proof.
  intros Hf. unfold contributing.
  induction courses as [|c courses IH]; [done|].
  rewrite fmap_cons, !filter_cons, IH.
  assert (contributes (f c) = contributes c) as ->
    by (unfold contributes; destruct (Hf c) as [-> ->]; done).
  by case_decide.
Qed.

(** X7. An update that sets neither grade nor credits (a rename) leaves the
    GPA as it is. *)
Theorem rename_keeps_gpa id updates courses scale :
  Partial.grade updates = None ->
  Partial.credits updates = None ->
  gpa (updateCourse id updates courses) scale = gpa courses scale.
Proof.
  intros Hgrade Hcredits. rewrite !GPAFacts.gpa_average. unfold updateCourse.
  set (f := fun c => if bool_decide (Course.id c = id) then spread c updates else c).
  assert (forall c, Course.grade (f c) = Course.grade c
                    /\ Course.credits (f c) = Course.credits c) as Hf.
  { intros c. unfold f, spread. case_bool_decide; [|done]. simpl.
    by rewrite Hgrade, Hcredits. }
  rewrite (contributing_fmap f) by done. unfold average.
  destruct (contributing courses) as [|c cs]; [done|].
  rewrite fmap_cons. rewrite <- !fmap_cons, <- !list_fmap_compose.
  f_equal.
  - f_equal. apply list_fmap_ext. intros _ c' _. simpl. unfold gradePoints.
    by destruct (Hf c') as [-> ->].
  - f_equal. apply list_fmap_ext. intros _ c' _. simpl. by destruct (Hf c') as [_ ->].
Qed.

Lemma rename_keeps_gpa_witness :
  gpa (updateCourse "1" (Partial.mk None (Some "Dynamics") None None)
         [Course.mk "1" "Statics" "A-" 3; Course.mk "2" "Optics" "B" 4]) Scale_4_3
  = gpa [Course.mk "1" "Statics" "A-" 3; Course.mk "2" "Optics" "B" 4] Scale_4_3.
Proof. by apply rename_keeps_gpa. Defined.

(** *** Updating and deleting by id *)

(** X8. An id that no course has: updating and deleting change nothing. *)
Theorem unknown_id_changes_nothing id updates courses :
  id ∉ Course.id <$> courses ->
  updateCourse id updates courses = courses /\ deleteCourse id courses = courses.
Proof.
  intros Hid.
  assert (Forall (fun c => Course.id c ≠ id) courses) as Hall.
  { apply Forall_forall. intros c Hc <-. apply Hid, list_elem_of_fmap. by exists c. }
  split.
  - unfold updateCourse. rewrite <- (list_fmap_id courses) at 2.
    apply Forall_fmap_ext_1. eapply Forall_impl; [exact Hall|].
    intros c Hc. simpl. by rewrite bool_decide_eq_false_2.
  - unfold deleteCourse. destruct (_ <? _)%nat; [|done]. by apply ListFacts.filter_all.
Qed.

Lemma unknown_id_changes_nothing_witness :
  updateCourse "9" (Partial.mk None None (Some "A") None) defaultCourses = defaultCourses
  /\ deleteCourse "9" defaultCourses = defaultCourses.
Proof.
  apply unknown_id_changes_nothing.
  apply (bool_decide_unpack _). by vm_compute.
Defined.

(** X9. With distinct ids and two courses or more, deleting a listed course
    takes out that course and no other: the list is one shorter, and holds
    exactly the other courses. *)
Theorem deleteCourse_removes_one id courses course :
  NoDup (Course.id <$> courses) ->
  course ∈ courses ->
  Course.id course = id ->
  (2 <= length courses)%nat ->
  S (length (deleteCourse id courses)) = length courses
  /\ forall c, c ∈ deleteCourse id courses <-> c ∈ courses /\ c <> course.
Proof.
  intros Hnd Hin <- Hlen. unfold deleteCourse.
  rewrite (proj2 (Nat.ltb_lt _ _)) by lia. clear Hlen.
  assert (forall c, c ∈ courses -> Course.id c = Course.id course -> c = course) as Hinj.
  { intros c Hc Hid.
    apply list_elem_of_lookup in Hc as [i Hi]. apply list_elem_of_lookup in Hin as [j Hj].
    assert (i = j) as ->; [|congruence].
    eapply NoDup_lookup; [exact Hnd| |]; rewrite list_lookup_fmap.
    - by rewrite Hi.
    - rewrite Hj. simpl. by rewrite Hid. }
  split.
  - clear Hinj. induction courses as [|c courses IH]; [by apply elem_of_nil in Hin|].
    rewrite fmap_cons in Hnd. apply NoDup_cons in Hnd as [Hc Hnd].
    rewrite filter_cons. apply elem_of_cons in Hin as [->|Hin].
    + rewrite decide_False by (intros H; by apply H). simpl. f_equal. f_equal.
      apply ListFacts.filter_all, Forall_forall. intros c' Hc' Heq. apply Hc.
      rewrite <- Heq. apply list_elem_of_fmap. by exists c'.
    + rewrite decide_True.
      * simpl. f_equal. by apply IH.
      * intros Heq. apply Hc. rewrite Heq. apply list_elem_of_fmap. by exists course.
  - intros c. rewrite list_elem_of_filter. split.
    + intros [Hne Hc]. split; [done|]. by intros ->.
    + intros [Hc Hne]. split; [|done]. intros Heq. by apply Hne, Hinj.
Qed.

Lemma deleteCourse_removes_one_witness :
  S (length (deleteCourse "3" defaultCourses)) = length defaultCourses
  /\ forall c, c ∈ deleteCourse "3" defaultCourses
               <-> c ∈ defaultCourses /\ c <> Course.mk "3" "Course 3" "" 3.
Proof.
  apply deleteCourse_removes_one.
  - apply (bool_decide_unpack _). by vm_compute.
  - vm_compute. right. right. left.
  - reflexivity.
  - vm_compute. lia.
Defined.

(** *** The credits on display *)

Import GPAStats.

Lemma credits_cases c :
  JS.lt c 0 = false ->
  (JS.gt c 0 = true /\ orElse c 0 = c) \/ (JS.gt c 0 = false /\ orElse c 0 = 0%float).
Proof.
  rewrite JSFacts.lt_zero_negative, JSFacts.gt_zero_positive.
  unfold orElse, falsy, JS.isNaN, is_nan. rewrite !FloatAxioms.eqb_spec.
  change (Prim2SF 0) with (S754_zero false).
  destruct (Prim2SF c) as [[]|[]| |[] m e]; simpl; try done; try by right.
  - by left.
  - intros _. left. unfold SFeqb. simpl. by rewrite Z.compare_refl, Pos.compare_cont_refl.
Qed.

Lemma add_zero_r acc : JS.total acc -> (acc + 0)%float = acc.
Proof.
  intros [->|Hacc]; [done|]. rewrite JSFacts.gt_zero_positive in Hacc.
  apply Prim2SF_inj. rewrite add_spec. change (Prim2SF 0) with (S754_zero false).
  by destruct (Prim2SF acc) as [[]|[]| |[] ? ?].
Qed.

Lemma completedCredits_from courses acc :
  JS.total acc ->
  Forall (fun c => JS.truthy (Course.grade c) = true -> JS.lt (Course.credits c) 0 = false)
    courses ->
  foldl
    (fun sum c =>
       if JS.truthy (Course.grade c) then (sum + orElse (Course.credits c) 0)%float else sum)
    acc courses
  = foldl PrimFloat.add acc (Course.credits <$> contributing courses).
Proof.
  intros Hacc Hall. revert acc Hacc.
  induction Hall as [|c courses Hc _ IH]; intros acc Hacc; [done|].
  unfold contributing. rewrite filter_cons. fold (contributing courses).
  cbn [foldl]. unfold contributes.
  destruct (JS.truthy (Course.grade c)); simpl.
  - destruct (credits_cases (Course.credits c)) as [[Hgt ->]|[Hgt ->]]; [by apply Hc|..].
    + rewrite Hgt, decide_True by done. simpl. apply IH. right.
      by apply JSFacts.add_positive.
    + rewrite Hgt, decide_False by done. rewrite add_zero_r by done. by apply IH.
  - by apply IH.
Qed.

(** X10. When no graded course has negative credits, the completed credits on
    display are the credits the analysis counts, and the remaining credits on
    display are the remaining credits the analysis divides by. *)
Theorem credits_shown_are_credits_used totalCreditsRequired courses :
  Forall (fun c => JS.truthy (Course.grade c) = true -> JS.lt (Course.credits c) 0 = false)
    courses ->
  completedCredits courses = JS.sum (Course.credits <$> contributing courses)
  /\ remainingCredits totalCreditsRequired courses
     = (totalCreditsRequired - JS.sum (Course.credits <$> contributing courses))%float.
Proof.
  intros Hall. unfold remainingCredits, completedCredits.
  rewrite completedCredits_from; [done|by left|done].
Qed.

(** A graded course without credits, one without a grade, two that count. *)
Lemma credits_shown_are_credits_used_witness :
  completedCredits
    [Course.mk "1" "Statics" "A" 3; Course.mk "2" "Optics" "B" 0;
     Course.mk "3" "Botany" "" 4; Course.mk "4" "Logic" "C+" 1.5]
  = JS.sum (Course.credits <$> contributing
      [Course.mk "1" "Statics" "A" 3; Course.mk "2" "Optics" "B" 0;
       Course.mk "3" "Botany" "" 4; Course.mk "4" "Logic" "C+" 1.5])
  /\ remainingCredits 120
       [Course.mk "1" "Statics" "A" 3; Course.mk "2" "Optics" "B" 0;
        Course.mk "3" "Botany" "" 4; Course.mk "4" "Logic" "C+" 1.5]
     = (120 - JS.sum (Course.credits <$> contributing
          [Course.mk "1" "Statics" "A" 3; Course.mk "2" "Optics" "B" 0;
           Course.mk "3" "Botany" "" 4; Course.mk "4" "Logic" "C+" 1.5]))%float.
Proof.
  apply credits_shown_are_credits_used.
  repeat (apply Forall_cons; split; [intros _; by vm_compute|]). apply Forall_nil_2.
Defined.

End GPAExtra.

(** ** The deck page *)

Module DeckFormFacts.
Import Flashcards DeckForms.

Lemma truthyText_trim s : JS.truthyText (JS.trim s) = false <-> Text.blank s.
Proof.
  unfold JS.truthyText. rewrite negb_false_iff, bool_decide_eq_true.
  symmetry. apply TextFacts.trim_blank.
Qed.

Lemma trim_clean s : ~ Text.blank s -> JS.trim s <> [] /\ Text.tidy (JS.trim s).
Proof.
  intros Hs. split; [by rewrite <- TextFacts.trim_blank|].
  by destruct (TextFacts.trim_stripped s) as (_ & _ & _ & _ & _ & Htidy).
Qed.

(** X11. [createDeck] keeps the deck names clean: if every deck has a name
    that is not empty and has no white space at either end, so has every deck
    afterwards.  The decks there were stay in place; a name that is not blank
    adds exactly one deck, which is empty and is called by the input with the
    white space at its ends taken off, and clears the input. *)
Theorem createDeck_cleans_name now s :
  Forall cleanName (decks s) ->
  Forall cleanName (decks (createDeck now s))
  /\ decks s `prefix_of` decks (createDeck now s)
  /\ (~ Text.blank (newDeckName s) ->
      exists name,
        Text.stripped (newDeckName s) name
        /\ decks (createDeck now s) = decks s ++ [Deck.mk (pretty now) name []]
        /\ newDeckName (createDeck now s) = []).
Proof.
  intros Hclean. unfold createDeck.
  destruct (JS.truthyText (JS.trim (newDeckName s))) eqn:Hname.
  - assert (~ Text.blank (newDeckName s)) as Hblank
      by (rewrite <- truthyText_trim; congruence).
    cbn [decks newDeckName]. split; [|split].
    + apply Forall_app. split; [done|]. apply Forall_singleton. by apply trim_clean.
    + by apply prefix_app_r.
    + intros _. exists (JS.trim (newDeckName s)).
      split; [apply TextFacts.trim_stripped|done].
  - split; [done|]. split; [done|]. intros Hblank. by apply truthyText_trim in Hname.
Qed.

(** A name between ideographic spaces, with a space and an NBSP behind. *)
Lemma createDeck_cleans_name_witness :
  decks (createDeck 1700000000000
           (mk [sampleDeck] ([12288%N] ++ JS.units "Verbs, irregular" ++ [12288; 32; 160]%N)
              [] []))
  = [sampleDeck; Deck.mk "1700000000000" (JS.units "Verbs, irregular") []]
  /\ Forall cleanName
       (decks (createDeck 1700000000000
                 (mk [sampleDeck]
                    ([12288%N] ++ JS.units "Verbs, irregular" ++ [12288; 32; 160]%N)
                    [] []))).
Proof.
  split; [by vm_compute|].
  apply (createDeck_cleans_name 1700000000000
           (mk [sampleDeck] ([12288%N] ++ JS.units "Verbs, irregular" ++ [12288; 32; 160]%N)
              [] [])).
  apply Forall_singleton. split; [discriminate|]. by vm_compute.
Defined.

(** X12. Input that is nothing but white space counts as no input, and no
    other input does: [createDeck] leaves the page as it is exactly when the
    deck name is blank, and [addCard] exactly when the front or the back is
    blank. *)
Theorem blank_input_is_ignored now clock deckId s :
  (Text.blank (newDeckName s) <-> createDeck now s = s)
  /\ (Text.blank (newCardFront s) \/ Text.blank (newCardBack s)
      <-> addCard clock deckId s = s).
Proof.
  unfold createDeck, addCard. split.
  - destruct (JS.truthyText (JS.trim (newDeckName s))) eqn:Hname.
    + split.
      * intros Hblank%truthyText_trim. congruence.
      * intros Hsame. apply (f_equal (length ∘ decks)) in Hsame. simpl in Hsame.
        rewrite length_app in Hsame. simpl in Hsame. lia.
    + by apply truthyText_trim in Hname.
  - destruct (JS.truthyText (JS.trim (newCardFront s))) eqn:Hfront;
      [destruct (JS.truthyText (JS.trim (newCardBack s))) eqn:Hback|].
    + simpl. split.
      * intros [Hblank%truthyText_trim|Hblank%truthyText_trim]; congruence.
      * intros Hsame. apply (f_equal newCardFront) in Hsame. simpl in Hsame.
        left. rewrite <- Hsame. done.
    + simpl. apply truthyText_trim in Hback. tauto.
    + simpl. apply truthyText_trim in Hfront. tauto.
Qed.

(** A name of an ideographic space, a space and a TAB; a back of an NBSP and
    a line separator. *)
Lemma blank_input_is_ignored_witness :
  createDeck 1700000000000
    (mk [sampleDeck] [12288; 32; 9]%N (JS.units "What is JSX?") [160; 8232]%N)
  = mk [sampleDeck] [12288; 32; 9]%N (JS.units "What is JSX?") [160; 8232]%N
  /\ addCard (fun _ => 1700000000000%N) "1"
       (mk [sampleDeck] [12288; 32; 9]%N (JS.units "What is JSX?") [160; 8232]%N)
     = mk [sampleDeck] [12288; 32; 9]%N (JS.units "What is JSX?") [160; 8232]%N.
Proof.
  destruct (blank_input_is_ignored 1700000000000 (fun _ => 1700000000000%N) "1"
              (mk [sampleDeck] [12288; 32; 9]%N (JS.units "What is JSX?") [160; 8232]%N))
    as [Hdeck Hcard].
  split; [apply Hdeck; by vm_compute|apply Hcard; right; by vm_compute].
Defined.

Lemma countMastered_snoc cards card :
  Flashcard.mastered card = false -> countMastered (cards ++ [card]) = countMastered cards.
Proof.
  intros Hcard. unfold countMastered.
  rewrite filter_app, filter_cons, filter_nil, decide_False by congruence.
  by rewrite app_nil_r.
Qed.

(** X13. With a front and a back that are not blank, [addCard] clears the two
    inputs, keeps the deck name input, and appends to every deck of the given
    id exactly one card: its sides are the two inputs with the white space at
    their ends taken off, neither is empty, and it is not mastered.  The
    deck's preview line then shows the new front and its mastered count is
    unchanged; the decks of other ids are untouched. *)
Theorem addCard_appends clock deckId s :
  ~ Text.blank (newCardFront s) ->
  ~ Text.blank (newCardBack s) ->
  exists front back,
    Text.stripped (newCardFront s) front /\ front <> []
    /\ Text.stripped (newCardBack s) back /\ back <> []
    /\ newCardFront (addCard clock deckId s) = []
    /\ newCardBack (addCard clock deckId s) = []
    /\ newDeckName (addCard clock deckId s) = newDeckName s
    /\ Forall2
         (fun d d' =>
            if bool_decide (Deck.id d = deckId)
            then Deck.id d' = Deck.id d /\ Deck.name d' = Deck.name d
                 /\ (exists id, Deck.cards d' = Deck.cards d ++ [Flashcard.mk id front back false])
                 /\ latest d' = Some front
                 /\ countMastered (Deck.cards d') = countMastered (Deck.cards d)
            else d' = d)
         (decks s) (decks (addCard clock deckId s)).
Proof.
  intros Hfront Hback.
  destruct (trim_clean _ Hfront) as [Hf _], (trim_clean _ Hback) as [Hb _].
  exists (JS.trim (newCardFront s)), (JS.trim (newCardBack s)).
  split; [apply TextFacts.trim_stripped|]. split; [done|].
  split; [apply TextFacts.trim_stripped|]. split; [done|].
  unfold addCard, JS.truthyText. rewrite !bool_decide_eq_false_2 by done.
  cbn [negb andb decks newDeckName newCardFront newCardBack].
  split; [done|]. split; [done|]. split; [done|].
  apply Forall2_same_length_lookup. split; [by rewrite length_imap|].
  intros i d d' Hd. rewrite list_lookup_imap, Hd. intros [= <-].
  case_bool_decide; [|done]. cbn [Deck.id Deck.name Deck.cards].
  split; [done|]. split; [done|]. split; [by eexists|]. split.
  - unfold latest. cbn [Deck.cards]. by rewrite last_snoc.
  - by apply countMastered_snoc.
Qed.

(** A front behind an ideographic space, a back before a CR. *)
Lemma addCard_appends_witness :
  decks (addCard (fun _ => 1700000000000%N) "2"
           (mk [sampleDeck; Deck.mk "2" (JS.units "Verbs") []] []
              ([12288%N] ++ JS.units "What is JSX?")
              (JS.units "Markup in JavaScript" ++ [32; 13]%N)))
  = [sampleDeck;
     Deck.mk "2" (JS.units "Verbs")
       [Flashcard.mk "1700000000000" (JS.units "What is JSX?")
          (JS.units "Markup in JavaScript") false]]
  /\ exists front back,
       Text.stripped ([12288%N] ++ JS.units "What is JSX?") front /\ front <> []
       /\ Text.stripped (JS.units "Markup in JavaScript" ++ [32; 13]%N) back /\ back <> []
       /\ Forall2
            (fun d d' =>
               if bool_decide (Deck.id d = "2")
               then Deck.id d' = Deck.id d /\ Deck.name d' = Deck.name d
                    /\ (exists id,
                          Deck.cards d' = Deck.cards d ++ [Flashcard.mk id front back false])
                    /\ latest d' = Some front
                    /\ countMastered (Deck.cards d') = countMastered (Deck.cards d)
               else d' = d)
            [sampleDeck; Deck.mk "2" (JS.units "Verbs") []]
            (decks (addCard (fun _ => 1700000000000%N) "2"
                      (mk [sampleDeck; Deck.mk "2" (JS.units "Verbs") []] []
                         ([12288%N] ++ JS.units "What is JSX?")
                         (JS.units "Markup in JavaScript" ++ [32; 13]%N)))).
Proof.
  split; [by vm_compute|].
  destruct (addCard_appends (fun _ => 1700000000000%N) "2"
              (mk [sampleDeck; Deck.mk "2" (JS.units "Verbs") []] []
                 ([12288%N] ++ JS.units "What is JSX?")
                 (JS.units "Markup in JavaScript" ++ [32; 13]%N)))
    as (front & back & Hfront & Hf & Hback & Hb & _ & _ & _ & Hdecks).
  - rewrite TextFacts.trim_blank. by vm_compute.
  - rewrite TextFacts.trim_blank. by vm_compute.
  - by exists front, back.
Defined.

Lemma isAlphanumeric_listed c : isAlphanumeric c = true <-> c ∈ lettersAndDigits.
Proof.
  split.
  - intros Hc.
    assert (c < 123)%N as Hlt.
    { unfold isAlphanumeric in Hc.
      repeat (apply orb_prop in Hc as [Hc|Hc]);
        apply andb_prop in Hc as [_ Hc%N.leb_le]; lia. }
    assert (Forall (fun n => isAlphanumeric n = true -> n ∈ lettersAndDigits)
              (N.of_nat <$> seq 0 123)) as Hall
      by (apply (bool_decide_unpack _); by vm_compute).
    rewrite Forall_forall in Hall. apply Hall; [|done].
    apply list_elem_of_fmap. exists (N.to_nat c). split; [lia|].
    apply elem_of_seq. lia.
  - revert c. apply Forall_forall.
    apply (bool_decide_unpack _). by vm_compute.
Qed.

Lemma replaceOthers_listed name :
  Forall (fun c => c ∈ fileNameCharacters) (replaceOthers name).
Proof.
  unfold replaceOthers. apply Forall_fmap, Forall_forall. intros c _. simpl.
  destruct (isAlphanumeric c) eqn:Hc.
  - apply isAlphanumeric_listed in Hc. unfold fileNameCharacters.
    replace (JS.units "abcdefghijklmnopqrstuvwxyzABCDEFGHIJKLMNOPQRSTUVWXYZ0123456789_.")
      with (lettersAndDigits ++ JS.units "_.") by (by vm_compute).
    apply elem_of_app. by left.
  - apply (bool_decide_unpack _). by vm_compute.
Qed.

(** X14. The file name of an export: every ASCII letter and digit of the deck
    name is kept in its place, every other code unit is replaced by ["_"],
    and ["_flashcards.pdf"] follows.  So the file name holds only ASCII
    letters, digits, ["_"] and ["."], whatever the deck is called; it is as
    long as the deck name plus the 15 characters of the suffix, and replacing
    again changes nothing. *)
Theorem pdfFileName_safe deck :
  (exists stem,
     pdfFileName deck = stem ++ JS.units "_flashcards.pdf"
     /\ Forall2 (fun c c' => c' = if decide (c ∈ lettersAndDigits) then c else 95%N)
          (Deck.name deck) stem
     /\ replaceOthers stem = stem)
  /\ Forall (fun c => c ∈ fileNameCharacters) (pdfFileName deck)
  /\ length (pdfFileName deck) = (length (Deck.name deck) + 15)%nat.
Proof.
  unfold pdfFileName. generalize (Deck.name deck) as name. intros name.
  split; [|split].
  - exists (replaceOthers name). split; [done|]. unfold replaceOthers. split.
    + apply Forall2_fmap_r, Forall_Forall2_diag, Forall_forall. intros c _. simpl.
      destruct (isAlphanumeric c) eqn:Hc.
      * by rewrite decide_True by (by apply isAlphanumeric_listed).
      * rewrite decide_False; [done|]. rewrite <- isAlphanumeric_listed. congruence.
    + rewrite <- list_fmap_compose. apply list_fmap_ext. intros _ c _. simpl.
      by destruct (isAlphanumeric c) eqn:Hc; rewrite ?Hc.
  - apply Forall_app. split; [apply replaceOthers_listed|].
    apply (bool_decide_unpack _). by vm_compute.
  - unfold replaceOthers. rewrite length_app, length_fmap. done.
Qed.

(** A deck called "Verbs 2 (" + three ideographs + ")". *)
Lemma pdfFileName_safe_witness :
  pdfFileName
    (Deck.mk "1" (JS.units "Verbs 2 (" ++ [26085; 26412; 35486]%N ++ JS.units ")") [])
  = JS.units "Verbs_2_______flashcards.pdf"
  /\ Forall (fun c => c ∈ fileNameCharacters) (JS.units "Verbs_2_______flashcards.pdf").
Proof.
  split; [by vm_compute|].
  replace (JS.units "Verbs_2_______flashcards.pdf")
    with (pdfFileName
            (Deck.mk "1" (JS.units "Verbs 2 (" ++ [26085; 26412; 35486]%N ++ JS.units ")")
               []))
    by (by vm_compute).
  apply pdfFileName_safe.
Defined.

End DeckFormFacts.

(** ** The deck collection *)

Module DeckExtra.
Import Flashcards.

(** X15. [updateDeck] never adds, removes, reorders or renumbers a deck:
    the ids stay as they are, every deck of the updated id becomes the updated
    deck, every other deck stays, and updating again changes nothing. *)
Theorem updateDeck_frame updatedDeck decks :
  Deck.id <$> updateDeck updatedDeck decks = Deck.id <$> decks
  /\ (forall d, d ∈ updateDeck updatedDeck decks ->
        Deck.id d = Deck.id updatedDeck -> d = updatedDeck)
  /\ (forall i d, decks !! i = Some d -> Deck.id d <> Deck.id updatedDeck ->
        updateDeck updatedDeck decks !! i = Some d)
  /\ updateDeck updatedDeck (updateDeck updatedDeck decks) = updateDeck updatedDeck decks.
Proof.
  unfold updateDeck. split; [|split; [|split]].
  - rewrite <- list_fmap_compose. apply list_fmap_ext. intros _ d _. simpl.
    by case_bool_decide.
  - intros d (d0 & -> & _)%list_elem_of_fmap. by case_bool_decide.
  - intros i d Hi Hne. rewrite list_lookup_fmap, Hi. simpl.
    by rewrite bool_decide_eq_false_2.
  - rewrite <- list_fmap_compose. apply list_fmap_ext. intros _ d _. simpl.
    destruct (decide (Deck.id d = Deck.id updatedDeck)) as [Hd|Hd].
    + by rewrite (bool_decide_eq_true_2 _ Hd), bool_decide_eq_true_2.
    + by rewrite (bool_decide_eq_false_2 _ Hd), (bool_decide_eq_false_2 _ Hd).
Qed.

(** X16. A deck that is deleted while an import into it is still being read
    comes back.  [importCSV] starts a reader that holds the collection of that
    moment; after the deck is deleted no deck has its id, but when the read
    completes the collection is set to the captured one with the new cards
    appended: the deleted deck is there again, with its cards and the
    imported ones. *)
Theorem pending_import_restores_deck clock deckId text p deck :
  deck ∈ Page.decks p ->
  Deck.id deck = deckId ->
  (deckId
   ∉ Deck.id <$> Page.decks (Page.deleteDeck deckId (Page.importCSV deckId (Some text) p)))
  /\ exists loaded,
       Page.onload clock (length (Page.readers p))
         (Page.deleteDeck deckId (Page.importCSV deckId (Some text) p))
       = Some loaded
       /\ Page.readers loaded = Page.readers p
       /\ Page.decks loaded = importCSV clock deckId (Some text) (Page.decks p)
       /\ Deck.mk deckId (Deck.name deck) (Deck.cards deck ++ newCards clock text)
          ∈ Page.decks loaded.
Proof.
  intros Hdeck Hid. split.
  - cbn [Page.importCSV Page.deleteDeck Page.decks]. unfold deleteDeck.
    intros (d & Hd & [Hkept _]%list_elem_of_filter)%list_elem_of_fmap. by apply Hkept.
  - unfold Page.onload. cbn [Page.importCSV Page.deleteDeck Page.readers Page.decks].
    rewrite list_lookup_middle by done. eexists. split; [reflexivity|].
    cbn [Page.readers Page.decks Page.Reader.deckId Page.Reader.text Page.Reader.decks].
    split; [|split; [done|]].
    + rewrite delete_middle. by rewrite app_nil_r.
    + cbn [importCSV]. apply list_elem_of_fmap. exists deck. split; [|done].
      rewrite bool_decide_eq_true_2 by done. by rewrite Hid.
Qed.

(** The sample deck, deleted while the example payload is read. *)
Lemma pending_import_restores_deck_witness :
  Page.decks (Page.deleteDeck "1"
                (Page.importCSV "1" (Some examplePayload) (Page.mk [sampleDeck] [])))
  = []
  /\ exists loaded,
       Page.onload (fun _ => 1700000000000%N) 0
         (Page.deleteDeck "1"
            (Page.importCSV "1" (Some examplePayload) (Page.mk [sampleDeck] [])))
       = Some loaded
       /\ Deck.mk "1" (Deck.name sampleDeck)
            (Deck.cards sampleDeck ++ newCards (fun _ => 1700000000000%N) examplePayload)
          ∈ Page.decks loaded.
Proof.
  split; [by vm_compute|].
  destruct (pending_import_restores_deck (fun _ => 1700000000000%N) "1" examplePayload
              (Page.mk [sampleDeck] []) sampleDeck)
    as (_ & loaded & Hloaded & _ & _ & Hback); [by left|done|].
  by exists loaded.
Defined.

(** X17. An id that no deck has: updating, deleting and importing change
    nothing. *)
Theorem unknown_deck_changes_nothing updatedDeck clock file deckId decks :
  Deck.id updatedDeck ∉ Deck.id <$> decks ->
  deckId ∉ Deck.id <$> decks ->
  updateDeck updatedDeck decks = decks
  /\ deleteDeck deckId decks = decks
  /\ importCSV clock deckId file decks = decks.
Proof.
  intros Hupdated Hid.
  assert (forall id, id ∉ Deck.id <$> decks -> Forall (fun d => Deck.id d ≠ id) decks)
    as Hall.
  { intros id Hno. apply Forall_forall. intros d Hd <-.
    apply Hno, list_elem_of_fmap. by exists d. }
  split; [|split].
  - unfold updateDeck. rewrite <- (list_fmap_id decks) at 2.
    apply Forall_fmap_ext_1. eapply Forall_impl; [exact (Hall _ Hupdated)|].
    intros d Hd. simpl. by rewrite bool_decide_eq_false_2.
  - by apply ListFacts.filter_all, Hall.
  - destruct file as [text|]; [|done]. simpl. rewrite <- (list_fmap_id decks) at 2.
    apply Forall_fmap_ext_1. eapply Forall_impl; [exact (Hall _ Hid)|].
    intros d Hd. simpl. by rewrite bool_decide_eq_false_2.
Qed.

Lemma unknown_deck_changes_nothing_witness :
  updateDeck (Deck.mk "7" (JS.units "Verbs") []) [sampleDeck] = [sampleDeck]
  /\ deleteDeck "8" [sampleDeck] = [sampleDeck]
  /\ importCSV (fun _ => 1700000000000%N) "8" (Some examplePayload) [sampleDeck]
     = [sampleDeck].
Proof.
  apply unknown_deck_changes_nothing; apply (bool_decide_unpack _); by vm_compute.
Defined.

End DeckExtra.

(** ** More on the import *)

Module ImportExtra.
Import Flashcards.

Lemma csvCard_id_inj now now' index index' record record' :
  Flashcard.id (csvCard now index record) = Flashcard.id (csvCard now' index' record') ->
  index = index'.
Proof.
  unfold csvCard. cbn [Flashcard.id]. intros Heq.
  apply TextFacts.dash_splits in Heq; [|apply TextFacts.pretty_N_dashless..].
  by apply (inj pretty) in Heq.
Qed.

(** X18. The cards of one import have pairwise distinct ids, whatever the
    clock reads, and there is at most one card per non-blank line. *)
Theorem import_ids_distinct clock text :
  NoDup (Flashcard.id <$> newCards clock text)
  /\ (length (newCards clock text) <= length (csvLines text))%nat.
Proof.
  unfold newCards. split.
  - eapply sublist_NoDup; [|apply fmap_sublist, sublist_filter].
    apply NoDup_alt. intros i j id. rewrite !list_lookup_fmap, !list_lookup_imap.
    destruct (csvLines text !! i) as [ri|]; [|done].
    destruct (csvLines text !! j) as [rj|]; [|done].
    simpl. intros [= <-] [= Heq].
    apply (csvCard_id_inj (clock i) (clock j) i j ri rj). symmetry. exact Heq.
  - etrans; [apply length_filter|]. by rewrite length_imap.
Qed.

(** X19. A payload none of whose records reads as a card: the new collection
    computed is the captured one, and when the read completes the page is set
    back to the collection it had when the file was chosen, whatever the
    collection has become meanwhile: nothing changes if nothing was done in
    between, and what was done in between is undone. *)
Theorem import_nothing_valid clock deckId text records p meanwhile :
  Text.separated newline text records ->
  Forall (fun record => reads record None) records ->
  importCSV clock deckId (Some text) (Page.decks p) = Page.decks p
  /\ Page.onload clock (length (Page.readers p))
       (Page.mk meanwhile (Page.readers (Page.importCSV deckId (Some text) p)))
     = Some (Page.mk (Page.decks p) (Page.readers p)).
Proof.
  intros Hrecords Hnone.
  assert (newCards clock text = []) as Hcards.
  { apply (fmap_nil_inv faces).
    rewrite (ImportFacts.newCards_read clock text records ((fun _ => None) <$> records));
      [|done|].
    - unfold cardsRead. clear. by induction records.
    - apply Forall2_fmap_r, Forall_Forall2_diag. exact Hnone. }
  assert (importCSV clock deckId (Some text) (Page.decks p) = Page.decks p) as Hsame.
  { cbn [importCSV]. rewrite Hcards.
    rewrite <- (list_fmap_id (Page.decks p)) at 2. apply list_fmap_ext.
    intros _ [id name cards] _. simpl. case_bool_decide; [|done]. by rewrite app_nil_r. }
  split; [exact Hsame|].
  unfold Page.onload. cbn [Page.importCSV Page.readers].
  rewrite list_lookup_middle by done.
  cbn [Page.Reader.deckId Page.Reader.text Page.Reader.decks].
  by rewrite Hsame, delete_middle, app_nil_r.
Qed.

(** A line without a comma, a blank line, a record without a front (an
    ideographic space before the comma) and a record without a back; a deck
    was created while the file was read. *)
Lemma import_nothing_valid_witness :
  Page.onload (fun _ => 1700000000000%N) 0
    (Page.mk [sampleDeck; Deck.mk "2" (JS.units "Verbs") []]
       (Page.readers
          (Page.importCSV "1"
             (Some (JS.units "front and back" ++ [newline; newline; 12288%N]
                    ++ JS.units ",answer only" ++ [newline]
                    ++ JS.units "question only, "))
             (Page.mk [sampleDeck] []))))
  = Some (Page.mk [sampleDeck] []).
Proof.
  destruct (import_nothing_valid (fun _ => 1700000000000%N) "1"
              (JS.units "front and back" ++ [newline; newline; 12288%N]
               ++ JS.units ",answer only" ++ [newline]
               ++ JS.units "question only, ")
              (JS.split newline
                 (JS.units "front and back" ++ [newline; newline; 12288%N]
                  ++ JS.units ",answer only" ++ [newline]
                  ++ JS.units "question only, "))
              (Page.mk [sampleDeck] [])
              [sampleDeck; Deck.mk "2" (JS.units "Verbs") []])
    as [_ Hload].
  - apply TextFacts.split_separated.
  - assert (Forall (fun record => recordFields record = None)
              (JS.split newline
                 (JS.units "front and back" ++ [newline; newline; 12288%N]
                  ++ JS.units ",answer only" ++ [newline]
                  ++ JS.units "question only, "))) as Hnone
      by (apply (bool_decide_unpack _); by vm_compute).
    eapply Forall_impl; [exact Hnone|].
    intros record Hrecord. rewrite <- Hrecord. apply ImportFacts.recordFields_reads.
  - exact Hload.
Defined.

End ImportExtra.

(** ** More on the study session *)

Module StudyExtra.
Import Flashcards DeckForms.

Lemma countMastered_Permutation cards cards' :
  cards ≡ₚ cards' -> countMastered cards = countMastered cards'.
Proof. intros H. unfold countMastered. by rewrite H. Qed.

Lemma step_counted s a s' :
  wellShuffled a -> counted s -> step s a = Some s' -> counted s'.
Proof.
  unfold counted. intros Ha Hs.
  destruct a as [ | | |rearrange|mastered| ]; simpl.
  - intros [= <-]. unfold nextCard. by destruct (_ <? _)%nat.
  - intros [= <-]. unfold prevCard. by destruct (_ <? _)%nat.
  - by intros [= <-].
  - intros [= <-]. simpl. rewrite Hs. symmetry. by apply countMastered_Permutation, Ha.
  - unfold markMastered. destruct (_ !! _); [|done]. by intros [= <-].
  - by intros [= <-].
Qed.

Lemma run_counted actions s s' :
  Forall wellShuffled actions -> counted s -> run s actions = Some s' -> counted s'.
Proof.
  intros Hact. revert s. induction Hact as [|a actions Ha _ IH]; intros s Hs; simpl.
  - by intros [= <-].
  - destruct (step s a) as [s1|] eqn:Hstep; [|done]. simpl.
    apply IH. by eapply step_counted.
Qed.

(** X20. Whatever is done in a session opened on a deck with cards, the
    current index stays inside the working list, the working list keeps the
    length of the deck, the header's mastered count is the number of mastered
    cards of the working list, the [deck] prop is the deck the session was
    opened on, and the collection keeps its decks' ids. *)
Theorem session_invariants decks deck actions :
  Deck.cards deck <> [] ->
  Forall wellShuffled actions ->
  exists s,
    run (startStudy decks deck) actions = Some s
    /\ (Study.currentIndex s < length (Study.cards s))%nat
    /\ length (Study.cards s) = length (Deck.cards deck)
    /\ Study.masteredCount s = countMastered (Study.cards s)
    /\ Study.deck s = deck
    /\ Deck.id <$> Study.decks s = Deck.id <$> decks.
Proof.
  intros Hne Hact.
  destruct (StudyFacts.run_session decks deck actions (startStudy decks deck))
    as (s & Hrun & [Hidx _] & Hprop & Hperm & Hkept);
    [by apply StudyFacts.startStudy_session|done|].
  exists s. split; [done|]. split; [done|]. split; [|split; [|split; [done|]]].
  - apply Permutation_length in Hperm. unfold unmarked in Hperm.
    by rewrite !length_fmap in Hperm.
  - by apply (run_counted actions (startStudy decks deck)).
  - clear -Hkept. induction Hkept as [|d d' ds ds' [Hid _] _ IH]; [done|].
    rewrite !fmap_cons. by rewrite Hid, IH.
Qed.

Lemma session_invariants_witness :
  exists s,
    run (startStudy [sampleDeck] sampleDeck)
      [MarkMastered true; NextCard; ShuffleCards reverse; NextCard; NextCard; Flip;
       MarkMastered false; PrevCard; Reset; MarkMastered true]
    = Some s
    /\ (Study.currentIndex s < length (Study.cards s))%nat
    /\ length (Study.cards s) = length (Deck.cards sampleDeck)
    /\ Study.masteredCount s = countMastered (Study.cards s)
    /\ Study.deck s = sampleDeck
    /\ Deck.id <$> Study.decks s = Deck.id <$> [sampleDeck].
Proof.
  apply (session_invariants [sampleDeck] sampleDeck).
  - discriminate.
  - repeat constructor. intros cards. apply reverse_Permutation.
Defined.

(** X21. Marking writes through.  At any point of a session, [markMastered]
    gives the current card the flag it is called with and changes nothing else
    of it and no other card, keeps the position and the side shown, and
    leaves the owning deck of the collection holding the working list, so
    that the deck list counts as many mastered cards as the session header;
    the other decks are untouched. *)
Theorem markMastered_writes_through decks deck actions mastered :
  Deck.cards deck <> [] ->
  Forall wellShuffled actions ->
  exists s s' card,
    run (startStudy decks deck) actions = Some s
    /\ markMastered mastered s = Some s'
    /\ Study.cards s !! Study.currentIndex s = Some card
    /\ Study.cards s'
       = <[Study.currentIndex s :=
             Flashcard.mk (Flashcard.id card) (Flashcard.front card) (Flashcard.back card)
               mastered]> (Study.cards s)
    /\ Flashcard.mastered <$> Study.cards s' !! Study.currentIndex s' = Some mastered
    /\ Study.currentIndex s' = Study.currentIndex s
    /\ Study.isFlipped s' = Study.isFlipped s
    /\ Forall2
         (fun d d' =>
            if bool_decide (Deck.id d = Deck.id deck)
            then d' = Deck.mk (Deck.id deck) (Deck.name deck) (Study.cards s')
                 /\ countMastered (Deck.cards d') = Study.masteredCount s'
            else d' = d)
         decks (Study.decks s').
Proof.
  intros Hne Hact.
  destruct (StudyFacts.run_session decks deck actions (startStudy decks deck))
    as (s & Hrun & [Hidx _] & Hprop & Hperm & Hkept);
    [by apply StudyFacts.startStudy_session|done|].
  destruct (lookup_lt_is_Some_2 _ _ Hidx) as [card Hcard].
  eexists s, _, card. split; [done|].
  split; [unfold markMastered; by rewrite Hcard|]. split; [done|].
  cbn [Study.cards Study.currentIndex Study.isFlipped Study.decks Study.masteredCount].
  split; [done|]. split; [by rewrite list_lookup_insert_eq|].
  split; [done|]. split; [done|]. rewrite Hprop.
  eapply Forall2_impl;
    [apply (StudyFacts.updateDeck_saved deck decks); [done|exact Hkept]|].
  intros d d'. simpl. case_bool_decide; [|done]. by intros ->.
Qed.

(** The sample deck, shuffled, second card marked: the card "What is
    React?" is mastered in the working list and in the collection. *)
Lemma markMastered_writes_through_witness :
  exists s s' card,
    run (startStudy [sampleDeck; Deck.mk "2" (JS.units "Verbs") []] sampleDeck)
      [ShuffleCards reverse; NextCard] = Some s
    /\ markMastered true s = Some s'
    /\ Study.cards s !! Study.currentIndex s = Some card
    /\ Flashcard.front card = JS.units "What is React?"
    /\ (Flashcard.id <$> Study.cards s', Flashcard.mastered <$> Study.cards s')
       = (["2"; "1"], [false; true])
    /\ Forall2
         (fun d d' =>
            if bool_decide (Deck.id d = Deck.id sampleDeck)
            then d' = Deck.mk (Deck.id sampleDeck) (Deck.name sampleDeck) (Study.cards s')
                 /\ countMastered (Deck.cards d') = Study.masteredCount s'
            else d' = d)
         [sampleDeck; Deck.mk "2" (JS.units "Verbs") []] (Study.decks s').
Proof.
  destruct (markMastered_writes_through [sampleDeck; Deck.mk "2" (JS.units "Verbs") []]
              sampleDeck [ShuffleCards reverse; NextCard] true)
    as (s & s' & card & Hrun & Hmark & Hcard & Hcards & _ & _ & _ & Hdecks).
  - discriminate.
  - repeat constructor. intros cards. apply reverse_Permutation.
  - exists s, s', card. split; [exact Hrun|]. split; [exact Hmark|].
    split; [exact Hcard|].
    vm_compute in Hrun. injection Hrun as <-.
    vm_compute in Hcard. injection Hcard as <-.
    split; [by vm_compute|]. split; [by rewrite Hcards|]. exact Hdecks.
Defined.

(** X22. The ends of the deck.  With the current index inside the working
    list, [nextCard] and [prevCard] keep it inside; at the last card
    [nextCard] does nothing, at the first card [prevCard] does nothing, and
    anywhere else [prevCard] after [nextCard] is back on the same card, face
    up. *)
Theorem stepping_stays_inside s :
  (Study.currentIndex s < length (Study.cards s))%nat ->
  (Study.currentIndex (nextCard s) < length (Study.cards (nextCard s)))%nat
  /\ (Study.currentIndex (prevCard s) < length (Study.cards (prevCard s)))%nat
  /\ (Study.currentIndex s + 1 = length (Study.cards s) -> nextCard s = s)%nat
  /\ (Study.currentIndex s = 0%nat -> prevCard s = s)
  /\ ((Study.currentIndex s + 1 < length (Study.cards s))%nat ->
      prevCard (nextCard s)
      = Study.mk (Study.decks s) (Study.studyMode s) (Study.deck s)
          (Study.currentIndex s) false (Study.shuffled s) (Study.cards s)
          (Study.masteredCount s)).
Proof.
  intros Hidx. unfold nextCard, prevCard.
  split; [|split; [|split; [|split]]].
  - destruct (Nat.ltb_spec (Study.currentIndex s) (length (Study.cards s) - 1));
      simpl; lia.
  - destruct (Nat.ltb_spec 0 (Study.currentIndex s)); simpl; lia.
  - intros Hlast.
    by destruct (Nat.ltb_spec (Study.currentIndex s) (length (Study.cards s) - 1));
      [lia|].
  - by intros ->.
  - intros Hlt.
    destruct (Nat.ltb_spec (Study.currentIndex s) (length (Study.cards s) - 1));
      [|lia].
    cbn [Study.currentIndex Study.decks Study.studyMode Study.deck Study.shuffled
         Study.cards Study.masteredCount].
    destruct (Nat.ltb_spec 0 (Study.currentIndex s + 1)); [|lia].
    f_equal. lia.
Qed.

Lemma stepping_stays_inside_witness :
  (Study.currentIndex (nextCard (startStudy [sampleDeck] sampleDeck))
   < length (Study.cards (nextCard (startStudy [sampleDeck] sampleDeck))))%nat
  /\ prevCard (startStudy [sampleDeck] sampleDeck) = startStudy [sampleDeck] sampleDeck
  /\ prevCard (nextCard (startStudy [sampleDeck] sampleDeck))
     = startStudy [sampleDeck] sampleDeck.
Proof.
  destruct (stepping_stays_inside (startStudy [sampleDeck] sampleDeck))
    as (Hnext & _ & _ & Hfirst & Hback); [vm_compute; lia|].
  split; [exact Hnext|]. split; [by apply Hfirst|].
  rewrite Hback; [reflexivity|vm_compute; lia].
Defined.

End StudyExtra.
